(** * NpmUtils: dependency listings to package records

    A shallow embedding of [src/ext-src/packages/npm/NpmUtils.ts] and the
    properties its specification states about it.

    Strings are sequences of code units; the code-unit type used here is
    [ascii], so inputs range over strings whose code units are below 256.
    Every string operation of the source that the model uses ([split],
    [trim], [includes], [substr], [replace], [===], [<], [>]) works code
    unit by code unit. *)

From Stdlib Require Import String Ascii List Bool Arith ZArith Lia.
From Stdlib Require Import Sorting.Sorted Permutation.
Import ListNotations.

Local Open Scope list_scope.
Local Open Scope string_scope.

#[local] Set Warnings "-register-all".

(** ** JavaScript string and array primitives used by the source *)

Module Js.

(** [WhiteSpace] and [LineTerminator] code units below 256, the ones
    [String.prototype.trim] strips: TAB, LF, VT, FF, CR, SP, NBSP. *)
Definition is_whitespace (c : ascii) : bool :=
  let n := nat_of_ascii c in
  ((9 <=? n)%nat && (n <=? 13)%nat) || (n =? 32)%nat || (n =? 160)%nat.

Fixpoint trimStart (s : string) : string :=
  match s with
  | EmptyString => EmptyString
  | String c s' => if is_whitespace c then trimStart s' else s
  end.

(** [trimEnd]: a code unit is kept when it is not white space or when
    something is kept after it. *)
Fixpoint trimEnd (s : string) : string :=
  match s with
  | EmptyString => EmptyString
  | String c s' =>
      match trimEnd s' with
      | EmptyString => if is_whitespace c then EmptyString else String c EmptyString
      | t => String c t
      end
  end.

(** [s.trim()] *)
Definition trim (s : string) : string := trimEnd (trimStart s).

(** [s.split(sep)] for a separator of one code unit: the pieces between
    the separators, in order; never the empty array. *)
Fixpoint split (sep : ascii) (s : string) : list string :=
  match s with
  | EmptyString => [EmptyString]
  | String c s' =>
      if Ascii.eqb c sep then EmptyString :: split sep s'
      else match split sep s' with
           | [] => [String c EmptyString]
           | piece :: pieces => String c piece :: pieces
           end
  end.

(** [s.includes(pat)] *)
Fixpoint includes (pat s : string) : bool :=
  if prefix pat s then true
  else match s with
       | EmptyString => false
       | String _ s' => includes pat s'
       end.

(** [s.substr(start, len)] *)
Definition substr (start len : nat) (s : string) : string :=
  substring start len s.

Fixpoint drop (n : nat) (s : string) : string :=
  match n, s with
  | O, _ => s
  | S _, EmptyString => EmptyString
  | S n', String _ s' => drop n' s'
  end.

(** [s.replace(pat, rep)] with a string pattern: only the first
    occurrence is replaced ([rep] holds no [$] pattern in the source). *)
Fixpoint replace (pat rep s : string) : string :=
  if prefix pat s then rep ++ drop (String.length pat) s
  else match s with
       | EmptyString => EmptyString
       | String c s' => String c (replace pat rep s')
       end.

(** [a[a.length - 1]] on an array of strings.  Every array the source
    indexes this way comes from [split], which is never empty (see
    [split_nonempty]), so the default is not reached from the parsers. *)
Definition lastOf (a : list string) : string := List.last a EmptyString.

(** [_.uniqBy(a, iteratee)] (lodash): the first element of each key is
    kept, in order of first occurrence; keys are strings here and
    compared with [SameValueZero], that is string equality. *)
Fixpoint uniqByAux {A : Type} (key : A -> string) (seen : list string)
         (a : list A) : list A :=
  match a with
  | [] => []
  | x :: rest =>
      if existsb (String.eqb (key x)) seen then uniqByAux key seen rest
      else x :: uniqByAux key (key x :: seen) rest
  end.

Definition uniqBy {A : Type} (a : list A) (key : A -> string) : list A :=
  uniqByAux key [] a.

(** The pattern of [stderr.search(p)]: [search] turns the string [p]
    into a regular expression, so a [.] of [p] matches any code unit
    that is not a line terminator; the other code units of the
    patterns used by the source are literal. *)
Definition regexp_unit_matches (p c : ascii) : bool :=
  if Ascii.eqb p "."%char
  then negb (Ascii.eqb c "010"%char || Ascii.eqb c "013"%char)
  else Ascii.eqb p c.

Fixpoint regexp_matches_here (pat s : string) : bool :=
  match pat, s with
  | EmptyString, _ => true
  | String _ _, EmptyString => false
  | String p pat', String c s' =>
      regexp_unit_matches p c && regexp_matches_here pat' s'
  end.

(** [s.search(pat) > -1] *)
Fixpoint search_found (pat s : string) : bool :=
  if regexp_matches_here pat s then true
  else match s with
       | EmptyString => false
       | String _ s' => search_found pat s'
       end.

End Js.

(** ** Exceptions, results and promises *)

(** What the source throws or receives as a thrown value: a [TypeError]
    of the runtime, an [Error] with its message, or the rejection of
    [exec], the only one that carries a [stderr] property. *)
Inductive Exn : Type :=
| TypeError
| Error (message : string)
| ExecError (stderr : string).

Inductive Result (A : Type) : Type :=
| Ok (a : A)
| Throw (e : Exn).

Arguments Ok {A} a.
Arguments Throw {A} e.

Definition bind {A B : Type} (r : Result A) (k : A -> Result B) : Result B :=
  match r with
  | Ok a => k a
  | Throw e => Throw e
  end.

Notation "x <- r ;; k" := (bind r (fun x => k))
  (at level 61, r at next level, right associativity).

(** The settled state of the promise an [async] method returns. *)
Inductive Promise (A : Type) : Type :=
| Resolve (value : A)
| Reject (reason : string).

Arguments Resolve {A} value.
Arguments Reject {A} reason.

(** [`${x}`] of a value that may be [undefined]. *)
Definition template (x : option string) : string :=
  match x with
  | Some s => s
  | None => "undefined"
  end.

(** [e.stderr] *)
Definition Exn_stderr (e : Exn) : option string :=
  match e with
  | ExecError stderr => Some stderr
  | _ => None
  end.

(** ** Parsed JSON inputs *)

(** A JavaScript object used as a dictionary: its own keys, in the order
    [Object.keys] lists them, each with its value. *)
Definition JsObject (V : Type) : Type := list (string * V).

Definition keys {V : Type} (o : JsObject V) : list string := map fst o.

(** A node of the dependency tree of [npm-shrinkwrap.json]: [version],
    the truthiness of [dev], and [dependencies] when the key is there. *)
Inductive ShrinkwrapNode : Type :=
| mkNode (version : string) (dev : bool)
         (dependencies : option (list (string * ShrinkwrapNode))).

Definition node_version (n : ShrinkwrapNode) : string :=
  match n with mkNode version _ _ => version end.

Definition node_dev (n : ShrinkwrapNode) : bool :=
  match n with mkNode _ dev _ => dev end.

Definition node_dependencies (n : ShrinkwrapNode) : option (JsObject ShrinkwrapNode) :=
  match n with mkNode _ _ dependencies => dependencies end.

Fixpoint node_height (n : ShrinkwrapNode) : nat :=
  match n with
  | mkNode _ _ None => 1
  | mkNode _ _ (Some ds) =>
      S ((fix heights (l : list (string * ShrinkwrapNode)) : nat :=
            match l with
            | [] => 0
            | (_, c) :: r => Nat.max (node_height c) (heights r)
            end) ds)
  end.

Definition tree_height (t : JsObject ShrinkwrapNode) : nat :=
  fold_right (fun kv h => Nat.max (node_height (snd kv)) h) 0 t.

(** The parsed [npm-shrinkwrap.json]; only its [dependencies] is read. *)
Record ShrinkwrapContents : Type := mkShrinkwrap {
  sw_dependencies : option (JsObject ShrinkwrapNode)
}.

(** The parsed [package.json]; only these two maps are read, and either
    key may be missing. *)
Record PackageJson : Type := mkPackageJson {
  pj_dependencies : option (JsObject string);
  pj_devDependencies : option (JsObject string)
}.

(** ** The package record *)

(** Modelled from the spec: the class [NpmPackage] of [./NpmPackage] is
    imported by the source and is not among the sources.  Its fields are
    the five the constructor calls of the source pass, in their order;
    the last two are optional there, and the spec leaves their defaults
    open ("default acceptable", "defaulted"): no theorem below depends on
    the values chosen for them.  [Version] is [None] when the source
    passes [undefined]. *)
Record NpmPackage : Type := mkNpmPackage {
  Name : string;
  Version : option string;
  Hash : string;
  IsTransitive : bool;
  DependencyType : string
}.

Definition default_IsTransitive : bool := false.
Definition default_DependencyType : string := "dependency".

(** [new NpmPackage(name, version, hash)] *)
Definition new_NpmPackage3 (name : string) (version : option string)
           (hash : string) : NpmPackage :=
  mkNpmPackage name version hash default_IsTransitive default_DependencyType.

(** [new NpmPackage(name, version, hash, isTransitive)] *)
Definition new_NpmPackage4 (name : string) (version : option string)
           (hash : string) (isTransitive : bool) : NpmPackage :=
  mkNpmPackage name version hash isTransitive default_DependencyType.

(** Modelled from the spec: [toPurl], a method of the missing class, is
    "a stable, deterministic string built from name + version"; the
    package-URL shape [pkg:npm/name@version] is used for it. *)
Definition toPurl (p : NpmPackage) : string :=
  "pkg:npm/" ++ Name p ++ "@" ++ template (Version p).

(** [p.IsTransitive = b] and [p.DependencyType = t], the two assignments
    the source makes to a record. *)
Definition set_IsTransitive (b : bool) (p : NpmPackage) : NpmPackage :=
  mkNpmPackage (Name p) (Version p) (Hash p) b (DependencyType p).

Definition set_DependencyType (t : string) (p : NpmPackage) : NpmPackage :=
  mkNpmPackage (Name p) (Version p) (Hash p) (IsTransitive p) t.

(** [dependency.dependencies] read from a package record: no constructor
    call of the source passes the nested map (see [extractInfo]) and the
    record has no such field, so the read gives [undefined]. *)
Definition NpmPackage_dependencies (p : NpmPackage) : option (JsObject ShrinkwrapNode) :=
  None.

(** ** The external collaborators of [getDependencyArray] *)

(** Modelled from the spec: the constants of [./NpmScanType] are not among
    the sources; the three implemented formats are named [yarn.lock],
    [npm-shrinkwrap.json] and [package-lock.json]. *)
Definition YARN_LOCK : string := "yarn.lock".
Definition NPM_SHRINKWRAP_JSON : string := "npm-shrinkwrap.json".
Definition PACKAGE_LOCK_JSON : string := "package-lock.json".

Definition NPM_SHRINKWRAP_COMMAND : string := "npm shrinkwrap".
Definition YARN_LIST_COMMAND : string := "yarn list".
Definition NPM_LIST_COMMAND : string := "npm list".

(** What [await exec(command, ...)] gives: the two output streams, or a
    thrown value. *)
Inductive ExecOutcome : Type :=
| ExecDone (stdout stderr : string)
| ExecThrows (e : Exn).

(** Everything [getDependencyArray] takes from outside the class: the
    outcome of [exec] for each command run in the workspace root, and
    [JSON.parse(fs.readFileSync(...))] of the two files read there. *)
Record World : Type := mkWorld {
  exec : string -> ExecOutcome;
  read_shrinkwrap : Result ShrinkwrapContents;
  read_package_json : Result PackageJson
}.

(** ** The class [NpmUtils] *)

Definition isRegularVersion (version : string) : bool :=
  if Js.includes "^" version then false
  else if Js.includes ">=" version then false
  else if Js.includes "<=" version then false
  else if Js.includes "~" version then false
  else if Js.includes "<" version then false
  else if Js.includes ">" version then false
  else true.

Definition removeScopeSymbolFromName (name : string) : string :=
  if Js.substr 0 1 name =? "@"
  then "%40" ++ Js.substr 1 (String.length name) name
  else name.

(** [newSplit[1]] is [undefined] when the split has one piece only;
    [name != ""] and [version != undefined] are the two tests made. *)
Definition setAndReturnNpmPackage (splitParts : list string) : Result NpmPackage :=
  let newName := removeScopeSymbolFromName (Js.lastOf splitParts) in
  let newSplit := Js.split "@" newName in
  let name := nth 0 newSplit "" in
  let version := nth_error newSplit 1 in
  match negb (name =? ""), version with
  | true, Some version =>
      Ok (new_NpmPackage3 (Js.replace "%40" "@" name) (Some version) "")
  | _, _ => Throw (Error ("No valid information, skipping dependency: " ++ newName))
  end.

(** The comparison function handed to [Array.prototype.sort]. *)
Definition compareNames (a b : NpmPackage) : Z :=
  if (Name b <? Name a)%string then 1%Z
  else if (Name a <? Name b)%string then (-1)%Z
  else 0%Z.

(** [Array.prototype.sort] with a comparison function: a stable sort,
    here by insertion from the right; an element goes in front of the
    first one it does not compare greater than. *)
Fixpoint sort_insert {A : Type} (cmp : A -> A -> Z) (x : A) (l : list A) : list A :=
  match l with
  | [] => [x]
  | y :: l' => if (0 <? cmp x y)%Z then y :: sort_insert cmp x l' else x :: l
  end.

Definition Array_sort {A : Type} (cmp : A -> A -> Z) (l : list A) : list A :=
  fold_right (sort_insert cmp) [] l.

Definition sortDependencyList (list : Datatypes.list NpmPackage) : Datatypes.list NpmPackage :=
  Array_sort compareNames list.

(** [a.forEach((x, index) => ...)] threading the array being pushed to. *)
Fixpoint forEach_from {A S : Type} (f : S -> A -> nat -> S) (index : nat)
         (a : list A) (st : S) : S :=
  match a with
  | [] => st
  | x :: rest => forEach_from f (Datatypes.S index) rest (f st x index)
  end.

Definition forEach {A S : Type} (a : list A) (f : S -> A -> nat -> S) (st : S) : S :=
  forEach_from f 0 a st.

(** The callback of [parseYarnList]; [dependencyList] is the array the
    callback pushes to.  A throw of [setAndReturnNpmPackage] is caught
    and nothing is pushed. *)
Definition yarnListLine (dependencyList : list NpmPackage) (dep : string)
           (index : nat) : list NpmPackage :=
  if (index =? 0)%nat then dependencyList
  else
    let splitParts := Js.split " " (Js.trim dep) in
    if negb (isRegularVersion (Js.lastOf splitParts)) then dependencyList
    else match setAndReturnNpmPackage splitParts with
         | Ok p => (dependencyList ++ [p])%list
         | Throw _ => dependencyList
         end.

Definition parseYarnList (output : string) : list NpmPackage :=
  let results := Js.split "010" output in
  let dependencyList := forEach results yarnListLine [] in
  let dependencyList := Js.uniqBy dependencyList toPurl in
  sortDependencyList dependencyList.

(** The callback of [parseNpmList]. *)
Definition npmListLine (dependencyList : list NpmPackage) (dep : string)
           (index : nat) : list NpmPackage :=
  if (index =? 0)%nat then dependencyList
  else
    let splitParts := Js.split " " (Js.trim dep) in
    if Js.lastOf splitParts =? "deduped" then dependencyList
    else match setAndReturnNpmPackage splitParts with
         | Ok p => (dependencyList ++ [p])%list
         | Throw _ => dependencyList
         end.

Definition parseNpmList (output : string) : list NpmPackage :=
  let results := Js.split "010" output in
  let dependencyList := forEach results npmListLine [] in
  let dependencyList := Js.uniqBy dependencyList toPurl in
  sortDependencyList dependencyList.

(** [Object.keys(array).map(k => new NpmPackage(k, array[k].version, hash,
    isTransitive, array[k].dev ? "devDependency" : "dependency"))]: the
    nested [dependencies] of a node is not passed on. *)
Definition extractInfo (array : JsObject ShrinkwrapNode) : list NpmPackage :=
  let isTransitive := true in
  let hash := "" in
  map (fun kv : string * ShrinkwrapNode =>
         let (k, node) := kv in
         mkNpmPackage k (Some (node_version node)) hash isTransitive
                      (if node_dev node then "devDependency" else "dependency"))
      array.

(** [Object.keys(undefined)] throws a [TypeError]; [array[k].split(":")[1]]
    is [undefined] when the value holds no colon. *)
Definition extractPackageJsonInfo (array : option (JsObject string)) : Result (list NpmPackage) :=
  let isTransitive := false in
  let hash := "" in
  match array with
  | None => Throw TypeError
  | Some o =>
      Ok (map (fun kv : string * string =>
                 let (k, v) := kv in
                 new_NpmPackage4 k (nth_error (Js.split ":" v) 1) hash isTransitive)
              o)
  end.

(** The [for ... of] loop of [flattenDependencies], with [fuel] bounding
    the depth of the recursive calls. *)
Fixpoint flattenDependencies (fuel : nat) (dependencies : list NpmPackage) : list NpmPackage :=
  match fuel with
  | O => []
  | S fuel' =>
      fold_left
        (fun result dependency =>
           let result := (result ++ [dependency])%list in
           match NpmPackage_dependencies dependency with
           | Some sub => (result ++ flattenDependencies fuel' (extractInfo sub))%list
           | None => result
           end)
        dependencies []
  end.

(** The inner loop of the runtime pass for one [elementTopLevel]: every
    record it reaches is first marked transitive; the first record of
    that name is then marked direct and the loop breaks. *)
Fixpoint scanTopLevel (elementTopLevel : NpmPackage) (flatDependencies : list NpmPackage)
  : list NpmPackage :=
  match flatDependencies with
  | [] => []
  | elementflatDependencies :: rest =>
      let e := set_IsTransitive true elementflatDependencies in
      if Name e =? Name elementTopLevel
      then set_DependencyType "dependency" (set_IsTransitive false e) :: rest
      else e :: scanTopLevel elementTopLevel rest
  end.

(** The inner loop of the development pass for one [element]. *)
Fixpoint scanDev (element : NpmPackage) (flatDependencies : list NpmPackage)
  : list NpmPackage :=
  match flatDependencies with
  | [] => []
  | elementflatDependencies :: rest =>
      let e := set_IsTransitive true elementflatDependencies in
      if Name e =? Name element
      then set_IsTransitive false (set_DependencyType "devDependency" e) :: rest
      else e :: scanDev element rest
  end.

(** The two outer loops, over the declared records in order. *)
Definition runtimePass (dependenciesTopLevel flatDependencies : list NpmPackage)
  : list NpmPackage :=
  fold_left (fun flat elementTopLevel => scanTopLevel elementTopLevel flat)
            dependenciesTopLevel flatDependencies.

Definition devPass (devDependencies flatDependencies : list NpmPackage)
  : list NpmPackage :=
  fold_left (fun flat element => scanDev element flat)
            devDependencies flatDependencies.

(** The second half of [flattenAndUniqDependencies]: the two passes
    over [flatDependencies], each after reading its map of the manifest. *)
Definition reconcile (npmPackageContents : PackageJson)
           (flatDependencies : list NpmPackage) : Result (list NpmPackage) :=
  dependenciesTopLevel <- extractPackageJsonInfo (pj_dependencies npmPackageContents) ;;
  let flatDependencies := runtimePass dependenciesTopLevel flatDependencies in
  devDependencies <- extractPackageJsonInfo (pj_devDependencies npmPackageContents) ;;
  let flatDependencies := devPass devDependencies flatDependencies in
  Ok flatDependencies.

(** [newflatDependencies] is computed and logged; [flatDependencies] is
    what the loops update and what is returned. *)
Definition flattenAndUniqDependencies (npmShrinkwrapContents : ShrinkwrapContents)
           (npmPackageContents : PackageJson) : Result (list NpmPackage) :=
  match sw_dependencies npmShrinkwrapContents with
  | None => Ok []
  | Some npmShrinkwrapContentsDependencies =>
      let flatDependencies :=
        flattenDependencies (S (tree_height npmShrinkwrapContentsDependencies))
                            (extractInfo npmShrinkwrapContentsDependencies) in
      let newflatDependencies := Js.uniqBy flatDependencies Name in
      reconcile npmPackageContents flatDependencies
  end.

(** The [catch] clause of [getDependencyArray]. *)
Definition read_failed (manifestType : string) (e : Exn) : Promise (list NpmPackage) :=
  Reject (manifestType ++ " read failed, try running it manually to see what went wrong: "
            ++ template (Exn_stderr e)).

Definition getDependencyArray (w : World) (manifestType : string) : Promise (list NpmPackage) :=
  if manifestType =? YARN_LOCK then
    match exec w YARN_LIST_COMMAND with
    | ExecThrows e => read_failed manifestType e
    | ExecDone stdout stderr =>
        if negb (stdout =? "") && (stderr =? "")
        then Resolve (parseYarnList stdout)
        else Reject ("Error running " ++ YARN_LIST_COMMAND ++ ", err: " ++ stderr)
    end
  else if manifestType =? NPM_SHRINKWRAP_JSON then
    match exec w NPM_SHRINKWRAP_COMMAND with
    | ExecThrows e => read_failed manifestType e
    | ExecDone stdout stderr =>
        let npmShrinkWrapFile := NPM_SHRINKWRAP_JSON in
        let shrinkWrapSucceeded :=
          negb (stdout =? "") || Js.search_found npmShrinkWrapFile stderr in
        if negb shrinkWrapSucceeded
        then Reject ("Unable to run " ++ NPM_SHRINKWRAP_COMMAND)
        else
          match read_shrinkwrap w with
          | Throw e => read_failed manifestType e
          | Ok obj =>
              match read_package_json w with
              | Throw e => read_failed manifestType e
              | Ok objTopLevel =>
                  match flattenAndUniqDependencies obj objTopLevel with
                  | Throw e => read_failed manifestType e
                  | Ok flatDependencies => Resolve flatDependencies
                  end
              end
          end
    end
  else if manifestType =? PACKAGE_LOCK_JSON then
    match exec w NPM_LIST_COMMAND with
    | ExecThrows e => read_failed manifestType e
    | ExecDone stdout stderr =>
        if negb (stdout =? "") && (stderr =? "")
        then Resolve (parseNpmList stdout)
        else Reject ("Error running " ++ NPM_LIST_COMMAND ++ ", err: " ++ stderr)
    end
  else
    Reject ("No valid command supplied, have you implemented it? Manifest type supplied: "
              ++ manifestType).

(** ** Notions the statements use *)

(** [pat] occurs in [s] as a substring. *)
Definition Contains (pat s : string) : Prop :=
  exists pre post, s = pre ++ pat ++ post.

(** The token holds one of the six range operators. *)
Definition HasRangeOperator (v : string) : Prop :=
  Contains "^" v \/ Contains "~" v \/ Contains ">=" v \/
  Contains "<=" v \/ Contains ">" v \/ Contains "<" v.

(** Ascending by name, neighbour by neighbour. *)
Definition NameSorted (l : list NpmPackage) : Prop :=
  Sorted (fun a b => (Name a <=? Name b)%string = true) l.

(** The flattening the specification words: each entry of the map, then
    the entries of its nested map, depth first. *)
Fixpoint flattenNode_spec (k : string) (n : ShrinkwrapNode) : list NpmPackage :=
  match n with
  | mkNode version dev ds =>
      mkNpmPackage k (Some version) "" true (if dev then "devDependency" else "dependency")
      :: match ds with
         | None => []
         | Some l =>
             (fix children (l : list (string * ShrinkwrapNode)) : list NpmPackage :=
                match l with
                | [] => []
                | (k', c) :: r => (flattenNode_spec k' c ++ children r)%list
                end) l
         end
  end.

Definition flattenTree_spec (t : JsObject ShrinkwrapNode) : list NpmPackage :=
  flat_map (fun kv => flattenNode_spec (fst kv) (snd kv)) t.

(** The record a scan leaves at its first name match, and the common
    shape of the two inner loops, which differ in the tag only. *)
Definition markDirect (tag : string) (e : NpmPackage) : NpmPackage :=
  mkNpmPackage (Name e) (Version e) (Hash e) false tag.

Fixpoint scan (tag name : string) (flat : list NpmPackage) : list NpmPackage :=
  match flat with
  | [] => []
  | e :: rest =>
      if Name e =? name then markDirect tag e :: rest
      else set_IsTransitive true e :: scan tag name rest
  end.

(** The tree of scenario C: [a], with [b] nested under it. *)
Definition scenario_C_tree : JsObject ShrinkwrapNode :=
  [("a", mkNode "1.0.0" false (Some [("b", mkNode "2.0.0" false None)]))].

(** A tree whose keys are in dictionary order, as [npm] writes them, which
    is not the order of the code units: [J] comes before [a] there. *)
Definition unordered_tree : JsObject ShrinkwrapNode :=
  [("abbrev", mkNode "1.1.1" false None); ("JSONStream", mkNode "1.3.5" false None)].

(** A workspace where [npm shrinkwrap] wrote its file and both files
    parse. *)
Definition shrinkwrap_world (sw : ShrinkwrapContents) (pj : PackageJson) : World :=
  mkWorld (fun _ => ExecDone "" "npm notice created a lockfile as npm-shrinkwrap.json")
          (Ok sw) (Ok pj).


Definition LF : string := String "010" "".



(** The shape of a record [setAndReturnNpmPackage] builds from [token]:
    a name, a version that is an [@]-free piece of the encoded token, and
    the constructor's values for the rest. *)
Definition Built (token : string) (p : NpmPackage) : Prop :=
  Name p <> "" /\
  (exists v, Version p = Some v /\ ~ Contains "@" v /\
             Contains v (removeScopeSymbolFromName token)) /\
  Hash p = "" /\ IsTransitive p = default_IsTransitive /\
  DependencyType p = default_DependencyType.

(** What one line after the first adds to the array of each parser. *)
Definition npmRecordOfLine (dep : string) : list NpmPackage :=
  match setAndReturnNpmPackage (Js.split " " (Js.trim dep)) with
  | Ok p => [p]
  | Throw _ => []
  end.

Definition yarnRecordOfLine (dep : string) : list NpmPackage :=
  if isRegularVersion (Js.lastOf (Js.split " " (Js.trim dep)))
  then npmRecordOfLine dep
  else [].

(** No code unit of [s] is white space; every code unit of [s] is. *)
Definition NoWhitespace (s : string) : Prop :=
  forall c, Contains (String c "") s -> Js.is_whitespace c = false.

Definition AllWhitespace (s : string) : Prop :=
  forall c, Contains (String c "") s -> Js.is_whitespace c = true.

(** * Properties *)

(** ** Strings *)

Section StringFacts.

Lemma prefix_iff (p s : string) :
  prefix p s = true <-> exists t, s = p ++ t.
Proof.
  revert s; induction p as [|a p IH]; intros s; simpl.
  - destruct s; split; eauto.
  - destruct s as [|b s]; simpl.
    + split; [discriminate | intros [t Ht]; discriminate].
    + destruct (ascii_dec a b) as [->|Hne].
      * rewrite IH. split; intros [t Ht]; exists t; congruence.
      * split; [discriminate | intros [t Ht]; congruence].
Qed.

Lemma includes_eq (pat s : string) :
  Js.includes pat s =
  if prefix pat s then true
  else match s with
       | EmptyString => false
       | String _ s' => Js.includes pat s'
       end.
Proof. destruct s; reflexivity. Qed.

Lemma includes_iff (pat s : string) :
  Js.includes pat s = true <-> Contains pat s.
Proof.
  split.
  - induction s as [|c s IH]; rewrite includes_eq;
      destruct (prefix pat _) eqn:E.
    + intros _. apply prefix_iff in E as [t Ht]. exists "", t. exact Ht.
    + discriminate.
    + intros _. apply prefix_iff in E as [t Ht]. exists "", t. exact Ht.
    + intros H. destruct (IH H) as (pre & post & ->).
      exists (String c pre), post. reflexivity.
  - intros (pre & post & ->).
    induction pre as [|c pre IH]; rewrite includes_eq.
    + assert (E : prefix pat (pat ++ post) = true) by (apply prefix_iff; eauto).
      simpl append at 1. rewrite E. reflexivity.
    + change (String c pre ++ pat ++ post) with (String c (pre ++ pat ++ post)).
      cbv beta iota. rewrite IH. destruct (prefix pat _); reflexivity.
Qed.

Lemma includes_false_iff (pat s : string) :
  Js.includes pat s = false <-> ~ Contains pat s.
Proof.
  rewrite <- includes_iff. destruct (Js.includes pat s); split; congruence.
Qed.

Lemma Contains_tail (pat : string) (c : ascii) (s : string) :
  Contains pat s -> Contains pat (String c s).
Proof. intros (pre & post & ->). exists (String c pre), post. reflexivity. Qed.

Lemma Contains_head (c : ascii) (s : string) :
  Contains (String c "") (String c s).
Proof. exists "", s. reflexivity. Qed.

Lemma split_nonempty (sep : ascii) (s : string) : Js.split sep s <> [].
Proof.
  destruct s as [|c s]; simpl; [discriminate|].
  destruct (Ascii.eqb c sep); [discriminate|].
  destruct (Js.split sep s); discriminate.
Qed.

Lemma split_no_sep (sep : ascii) (s : string) :
  ~ Contains (String sep "") s -> Js.split sep s = [s].
Proof.
  induction s as [|c s IH]; intros H; simpl; [reflexivity|].
  destruct (Ascii.eqb_spec c sep) as [->|Hne].
  - exfalso. apply H, Contains_head.
  - rewrite IH; [reflexivity|]. intros Hc. apply H, Contains_tail, Hc.
Qed.

Lemma split_at_first_sep (sep : ascii) (a b : string) :
  ~ Contains (String sep "") a ->
  Js.split sep (a ++ String sep b) = a :: Js.split sep b.
Proof.
  induction a as [|c a IH]; intros H; simpl.
  - rewrite Ascii.eqb_refl. reflexivity.
  - destruct (Ascii.eqb_spec c sep) as [->|Hne].
    + exfalso. apply H, Contains_head.
    + rewrite IH; [reflexivity|]. intros Hc. apply H, Contains_tail, Hc.
Qed.

Lemma split_two_pieces (sep : ascii) (s a b : string) (r : list string) :
  Js.split sep s = a :: b :: r ->
  ~ Contains (String sep "") a /\
  exists rest, s = a ++ String sep rest /\ Js.split sep rest = b :: r.
Proof.
  revert a; induction s as [|c s IH]; intros a; simpl; [discriminate|].
  destruct (Ascii.eqb_spec c sep) as [->|Hne].
  - intros E; injection E as <- E. split.
    + intros (pre & post & Hc). destruct pre; discriminate.
    + exists s. split; [reflexivity | exact E].
  - destruct (Js.split sep s) as [|p ps] eqn:Es; [discriminate|].
    intros E; injection E as Ha Hps; subst a ps.
    destruct (IH p eq_refl) as (Hp & rest & -> & Hrest). split.
    + intros (pre & post & Hc). destruct pre as [|c' pre]; simpl in Hc.
      * injection Hc as Hc _. congruence.
      * injection Hc as _ Hc. apply Hp. exists pre, post. exact Hc.
    + exists rest. split; [reflexivity | exact Hrest].
Qed.

Lemma substring_all (n : nat) (s : string) :
  String.length s <= n -> substring 0 n s = s.
Proof.
  revert n; induction s as [|c s IH]; intros [|n] H; simpl in *;
    try reflexivity; try lia.
  rewrite IH; [reflexivity | lia].
Qed.

Lemma append_assoc (a b c : string) : (a ++ b) ++ c = a ++ b ++ c.
Proof. induction a as [|x a IH]; simpl; [reflexivity | rewrite IH; reflexivity]. Qed.

Lemma Contains_unit_cons (c x : ascii) (s : string) :
  Contains (String c "") (String x s) -> x = c \/ Contains (String c "") s.
Proof.
  intros (pre & post & H). destruct pre as [|y pre]; simpl in H.
  - left. congruence.
  - right. exists pre, post. simpl. congruence.
Qed.

Lemma Contains_unit_app (c : ascii) (a b : string) :
  Contains (String c "") (a ++ b) ->
  Contains (String c "") a \/ Contains (String c "") b.
Proof.
  induction a as [|x a IH]; simpl; intros H; [right; exact H|].
  apply Contains_unit_cons in H as [->|H].
  - left. apply Contains_head.
  - destruct (IH H) as [Ha|Hb]; [left; apply Contains_tail, Ha | right; exact Hb].
Qed.

Lemma drop_app (p s : string) : Js.drop (String.length p) (p ++ s) = s.
Proof. induction p as [|c p IH]; simpl; [reflexivity | exact IH]. Qed.

Lemma replace_at_start (pat rep s : string) :
  Js.replace pat rep (pat ++ s) = rep ++ s.
Proof.
  assert (E : prefix pat (pat ++ s) = true) by (apply prefix_iff; eauto).
  assert (U : forall t, Js.replace pat rep t =
                        if prefix pat t then rep ++ Js.drop (String.length pat) t
                        else match t with
                             | EmptyString => EmptyString
                             | String c t' => String c (Js.replace pat rep t')
                             end) by (intros []; reflexivity).
  rewrite U, E, drop_app. reflexivity.
Qed.

Lemma lastOf_snoc (pre : list string) (token : string) :
  Js.lastOf (pre ++ [token])%list = token.
Proof. unfold Js.lastOf. apply last_last. Qed.

End StringFacts.

(** ** The version classifier *)

(** C8. [isRegularVersion] answers [false] exactly for the tokens that hold
    one of the operators [^], [~], [>=], [<=], [>], [<] somewhere, and
    [true] for every other token; being a function of the token alone, it
    gives one answer per token. *)
Theorem isRegularVersion_rejects_exactly_ranges (version : string) :
  (isRegularVersion version = false <-> HasRangeOperator version) /\
  (isRegularVersion version = true <-> ~ HasRangeOperator version).
Proof.
  unfold isRegularVersion, HasRangeOperator.
  rewrite <- !includes_iff.
  destruct (Js.includes "^" version), (Js.includes ">=" version),
    (Js.includes "<=" version), (Js.includes "~" version),
    (Js.includes "<" version), (Js.includes ">" version);
    cbv iota; intuition congruence.
Qed.

(** ** Record construction from a token *)

Section RecordConstruction.

Variable pre : list string.

Lemma removeScope_scoped (rest : string) :
  removeScopeSymbolFromName (String "@" rest) = "%40" ++ rest.
Proof.
  unfold removeScopeSymbolFromName, Js.substr. simpl.
  destruct rest; simpl; [reflexivity|].
  rewrite substring_all; [reflexivity | simpl; lia].
Qed.

(** What [setAndReturnNpmPackage] returns once the encoded token is cut at
    its first [@]. *)
Lemma setAndReturnNpmPackage_cut (token name rest : string) :
  removeScopeSymbolFromName token = name ++ "@" ++ rest ->
  ~ Contains "@" name ->
  name <> "" ->
  setAndReturnNpmPackage (pre ++ [token]) =
  Ok (new_NpmPackage3 (Js.replace "%40" "@" name)
                      (Some (nth 0 (Js.split "@" rest) "")) "").
Proof.
  intros Henc Hname Hne. unfold setAndReturnNpmPackage.
  rewrite lastOf_snoc, Henc.
  change (name ++ "@" ++ rest) with (name ++ String "@" rest).
  rewrite split_at_first_sep by exact Hname.
  destruct (Js.split "@" rest) as [|v vs] eqn:Es;
    [exfalso; exact (split_nonempty _ _ Es)|].
  simpl. destruct (String.eqb_spec name "") as [E|_]; [contradiction | reflexivity].
Qed.

(** C7. A scoped token [@scope/pkg@version], whose three parts hold no
    [@], becomes the record named [@scope/pkg] with that version: encoding
    the leading [@], cutting at [@] and decoding loses nothing. *)
Theorem scoped_token_round_trips (scope pkg version : string) :
  ~ Contains "@" scope -> ~ Contains "@" pkg -> ~ Contains "@" version ->
  setAndReturnNpmPackage (pre ++ ["@" ++ scope ++ "/" ++ pkg ++ "@" ++ version]) =
  Ok (new_NpmPackage3 ("@" ++ scope ++ "/" ++ pkg) (Some version) "").
Proof.
  intros Hs Hp Hv.
  rewrite (setAndReturnNpmPackage_cut _ ("%40" ++ scope ++ "/" ++ pkg) version).
  - rewrite (split_no_sep _ _ Hv), replace_at_start. reflexivity.
  - change ("@" ++ scope ++ "/" ++ pkg ++ "@" ++ version)
      with (String "@" (scope ++ "/" ++ pkg ++ "@" ++ version)).
    rewrite removeScope_scoped, !append_assoc. reflexivity.
  - intros H.
    apply (Contains_unit_app "@" "%40") in H as [H|H].
    + apply includes_iff in H. discriminate.
    + apply Contains_unit_app in H as [H|H]; [exact (Hs H)|].
      apply (Contains_unit_app "@" "/") in H as [H|H]; [|exact (Hp H)].
      apply includes_iff in H. discriminate.
  - discriminate.
Qed.

(** C6, as the code has it. Construction succeeds exactly when the encoded
    token has a non-empty piece in front of its first [@]: the name must
    not be empty and the version must be there, and nothing asks the
    version to be non-empty.  The record then carries the decoded name and
    the piece between the first [@] and the next one. *)
Theorem setAndReturnNpmPackage_succeeds_iff (token : string) :
  ((exists p, setAndReturnNpmPackage (pre ++ [token]) = Ok p) <->
   (exists name rest,
       name <> "" /\ ~ Contains "@" name /\
       removeScopeSymbolFromName token = name ++ "@" ++ rest)) /\
  (forall name rest,
      name <> "" -> ~ Contains "@" name ->
      removeScopeSymbolFromName token = name ++ "@" ++ rest ->
      setAndReturnNpmPackage (pre ++ [token]) =
      Ok (new_NpmPackage3 (Js.replace "%40" "@" name)
                          (Some (nth 0 (Js.split "@" rest) "")) "")).
Proof.
  split; [split|].
  - intros [p Hp]. unfold setAndReturnNpmPackage in Hp.
    rewrite lastOf_snoc in Hp.
    destruct (Js.split "@" (removeScopeSymbolFromName token)) as [|name [|v vs]] eqn:Es;
      simpl in Hp.
    + destruct (negb ("" =? "")); discriminate.
    + destruct (negb (name =? "")); discriminate.
    + apply split_two_pieces in Es as (Hname & rest & Henc & _).
      exists name, rest. repeat split; [|exact Hname|exact Henc].
      intros ->. simpl in Hp. discriminate.
  - intros (name & rest & Hne & Hname & Henc).
    eexists. apply (setAndReturnNpmPackage_cut _ _ _ Henc Hname Hne).
  - intros name rest Hne Hname Henc.
    apply (setAndReturnNpmPackage_cut _ _ _ Henc Hname Hne).
Qed.

End RecordConstruction.

(** The token [foo@]: its version piece is the empty string, and a record
    is built all the same. *)
Lemma empty_version_is_accepted :
  nth_error (Js.split "@" (removeScopeSymbolFromName "foo@")) 1 = Some "" /\
  setAndReturnNpmPackage ["foo@"] = Ok (new_NpmPackage3 "foo" (Some "") "").
Proof. split; reflexivity. Qed.

Lemma no_at_sign (s : string) : Js.includes "@" s = false -> ~ Contains "@" s.
Proof. apply includes_false_iff. Qed.

(** Scenario E. *)
Lemma scoped_token_round_trips_scenario_E :
  setAndReturnNpmPackage ["@scope/pkg@1.0.0"] =
  Ok (new_NpmPackage3 "@scope/pkg" (Some "1.0.0") "").
Proof.
  apply (scoped_token_round_trips [] "scope" "pkg" "1.0.0");
    apply no_at_sign; reflexivity.
Defined.

(** The amended statement at [foo@]: name [foo], nothing after the [@]. *)
Lemma setAndReturnNpmPackage_succeeds_on_empty_version :
  setAndReturnNpmPackage ["foo@"] = Ok (new_NpmPackage3 "foo" (Some "") "").
Proof.
  apply (proj2 (setAndReturnNpmPackage_succeeds_iff [] "foo@") "foo" "").
  - discriminate.
  - apply no_at_sign; reflexivity.
  - reflexivity.
Defined.

(** ** Reconciliation against the manifest *)

Section Reconciliation.

Lemma scanTopLevel_scan (x : NpmPackage) (flat : list NpmPackage) :
  scanTopLevel x flat = scan "dependency" (Name x) flat.
Proof.
  induction flat as [|e rest IH]; simpl; [reflexivity|].
  destruct (Name e =? Name x); [reflexivity | rewrite IH; reflexivity].
Qed.

Lemma scanDev_scan (x : NpmPackage) (flat : list NpmPackage) :
  scanDev x flat = scan "devDependency" (Name x) flat.
Proof.
  induction flat as [|e rest IH]; simpl; [reflexivity|].
  destruct (Name e =? Name x); [reflexivity | rewrite IH; reflexivity].
Qed.

Variables tag name : string.

(** A scan passes over the records of other names, marking each one
    transitive. *)
Lemma scan_app (pre rest : list NpmPackage) :
  (forall q, In q pre -> Name q <> name) ->
  scan tag name (pre ++ rest) =
  (map (set_IsTransitive true) pre ++ scan tag name rest)%list.
Proof.
  induction pre as [|q pre IH]; intros H; simpl; [reflexivity|].
  destruct (String.eqb_spec (Name q) name) as [E|_].
  - exfalso. apply (H q); [left; reflexivity | exact E].
  - rewrite IH; [reflexivity|]. intros q' Hq'. apply H. right. exact Hq'.
Qed.

Lemma scan_first_match (pre post : list NpmPackage) (e : NpmPackage) :
  (forall q, In q pre -> Name q <> name) -> Name e = name ->
  scan tag name (pre ++ e :: post) =
  (map (set_IsTransitive true) pre ++ markDirect tag e :: post)%list.
Proof.
  intros H E. rewrite scan_app by exact H. simpl.
  rewrite E, String.eqb_refl. reflexivity.
Qed.

Lemma scan_names (flat : list NpmPackage) :
  map Name (scan tag name flat) = map Name flat.
Proof.
  induction flat as [|e rest IH]; simpl; [reflexivity|].
  destruct (Name e =? name); simpl; [reflexivity | rewrite IH; reflexivity].
Qed.

(** A record already tagged [tag] keeps that tag through a scan. *)
Lemma scan_keeps_tag (flat : list NpmPackage) (i : nat) (p : NpmPackage) :
  nth_error flat i = Some p -> DependencyType p = tag ->
  exists p', nth_error (scan tag name flat) i = Some p' /\ DependencyType p' = tag.
Proof.
  revert i; induction flat as [|e rest IH]; intros [|i] Hi Ht; simpl in *;
    try discriminate.
  - injection Hi as ->. destruct (Name p =? name); simpl; eauto.
  - destruct (Name e =? name); simpl; eauto.
Qed.

End Reconciliation.

Lemma runtimePass_names (top flat : list NpmPackage) :
  map Name (runtimePass top flat) = map Name flat.
Proof.
  unfold runtimePass. revert flat; induction top as [|x top IH]; intros flat; simpl;
    [reflexivity|]. rewrite IH, scanTopLevel_scan. apply scan_names.
Qed.

Lemma devPass_names (dev flat : list NpmPackage) :
  map Name (devPass dev flat) = map Name flat.
Proof.
  unfold devPass. revert flat; induction dev as [|x dev IH]; intros flat; simpl;
    [reflexivity|]. rewrite IH, scanDev_scan. apply scan_names.
Qed.

Lemma runtimePass_keeps_tag (top flat : list NpmPackage) (i : nat) (p : NpmPackage) :
  nth_error flat i = Some p -> DependencyType p = "dependency" ->
  exists p', nth_error (runtimePass top flat) i = Some p' /\
             DependencyType p' = "dependency".
Proof.
  unfold runtimePass. revert flat p; induction top as [|x top IH]; intros flat p Hi Ht;
    simpl; [eauto|].
  rewrite scanTopLevel_scan.
  destruct (scan_keeps_tag "dependency" (Name x) flat i p Hi Ht) as (p' & Hi' & Ht').
  exact (IH _ _ Hi' Ht').
Qed.


Lemma runtimePass_app (l1 l2 flat : list NpmPackage) :
  runtimePass (l1 ++ l2) flat = runtimePass l2 (runtimePass l1 flat).
Proof. apply fold_left_app. Qed.

Lemma devPass_app (l1 l2 flat : list NpmPackage) :
  devPass (l1 ++ l2) flat = devPass l2 (devPass l1 flat).
Proof. apply fold_left_app. Qed.

(** A list with the names of [pre ++ e :: post] splits the same way. *)
Lemma same_names_split (l pre post : list NpmPackage) (e : NpmPackage) :
  map Name l = map Name (pre ++ e :: post) ->
  exists pre' e' post',
    l = (pre' ++ e' :: post')%list /\ map Name pre' = map Name pre /\
    Name e' = Name e.
Proof.
  revert l; induction pre as [|q pre IH]; intros [|x l] H; simpl in H;
    try discriminate; injection H as Hx Hl.
  - exists [], x, l. auto.
  - destruct (IH l Hl) as (pre' & e' & post' & -> & Hpre & He).
    exists (x :: pre'), e', post'. simpl. rewrite Hx, Hpre. auto.
Qed.

Lemma names_differ_transfer (pre pre' : list NpmPackage) (n : string) :
  map Name pre' = map Name pre ->
  (forall q, In q pre -> Name q <> n) -> forall q, In q pre' -> Name q <> n.
Proof.
  intros Hm H q Hq E.
  assert (Hin : In n (map Name pre)) by (rewrite <- Hm, <- E; apply in_map, Hq).
  apply in_map_iff in Hin as (q0 & E0 & Hq0). exact (H q0 Hq0 E0).
Qed.

Lemma extractPackageJsonInfo_names (o : JsObject string) :
  exists l, extractPackageJsonInfo (Some o) = Ok l /\ map Name l = keys o.
Proof.
  eexists; split; [reflexivity|]. unfold keys. rewrite map_map.
  apply map_ext. intros [k v]. reflexivity.
Qed.

(** What one pass does to the first record of a declared name. *)
Lemma pass_tags_first_match (tag : string)
      (pass : list NpmPackage -> list NpmPackage -> list NpmPackage)
      (declared flat pre post : list NpmPackage) (e : NpmPackage) (n : string) :
  (forall l1 l2 f, pass (l1 ++ l2)%list f = pass l2 (pass l1 f)) ->
  (forall l f, map Name (pass l f) = map Name f) ->
  (forall x f, pass [x] f = scan tag (Name x) f) ->
  (forall l f i p, nth_error f i = Some p -> DependencyType p = tag ->
                   exists p', nth_error (pass l f) i = Some p' /\ DependencyType p' = tag) ->
  In n (map Name declared) ->
  flat = (pre ++ e :: post)%list -> Name e = n ->
  (forall q, In q pre -> Name q <> n) ->
  exists e', nth_error (pass declared flat) (length pre) = Some e' /\
             DependencyType e' = tag.
Proof.
  intros Happ Hnames Hone Hkeep Hin -> He Hpre.
  apply in_map_iff in Hin as (x & Hx & Hin).
  apply in_split in Hin as (l1 & l2 & ->).
  rewrite Happ. change (x :: l2) with ([x] ++ l2)%list. rewrite Happ, Hone.
  destruct (same_names_split (pass l1 (pre ++ e :: post)%list) pre post e (Hnames _ _))
    as (pre' & e' & post' & -> & Hm & He').
  rewrite Hx, (scan_first_match tag n pre' post' e').
  - apply (Hkeep l2 _ _ (markDirect tag e')); [|reflexivity].
    rewrite nth_error_app2; rewrite length_map;
      rewrite <- (length_map Name pre'), Hm, length_map; [|lia].
    rewrite Nat.sub_diag. reflexivity.
  - exact (names_differ_transfer _ _ _ Hm Hpre).
  - congruence.
Qed.

Lemma same_names_length (l l' : list NpmPackage) :
  map Name l = map Name l' -> length l = length l'.
Proof. intros H. rewrite <- (length_map Name l), H. apply length_map. Qed.

Lemma same_names_nth (l l' : list NpmPackage) (i : nat) (p p' : NpmPackage) :
  map Name l = map Name l' ->
  nth_error l i = Some p -> nth_error l' i = Some p' -> Name p = Name p'.
Proof.
  intros H Hp Hp'.
  apply (map_nth_error Name) in Hp. apply (map_nth_error Name) in Hp'.
  congruence.
Qed.

Lemma runtimePass_one (x : NpmPackage) (f : list NpmPackage) :
  runtimePass [x] f = scan "dependency" (Name x) f.
Proof. apply scanTopLevel_scan. Qed.

Lemma devPass_one (x : NpmPackage) (f : list NpmPackage) :
  devPass [x] f = scan "devDependency" (Name x) f.
Proof. apply scanDev_scan. Qed.



(** C4. The inner loop of the development pass marks every record it
    passes before its first name match as transitive; so a record the
    runtime pass had marked direct can end transitive, as it does for the
    tree [a, b] with [a] declared in [dependencies] and [b] in
    [devDependencies]. *)
Theorem devPass_reverts_direct_records :
  (forall element pre rest,
      (forall q, In q pre -> Name q <> Name element) ->
      scanDev element (pre ++ rest) =
      (map (set_IsTransitive true) pre ++ scanDev element rest)%list) /\
  (exists sw pj top dev flat before after out,
      sw_dependencies sw = Some [("a", mkNode "1.0.0" false None);
                                 ("b", mkNode "2.0.0" false None)] /\
      pj = mkPackageJson (Some [("a", "^1.0.0")]) (Some [("b", "^2.0.0")]) /\
      flat = extractInfo [("a", mkNode "1.0.0" false None);
                          ("b", mkNode "2.0.0" false None)] /\
      extractPackageJsonInfo (pj_dependencies pj) = Ok top /\
      extractPackageJsonInfo (pj_devDependencies pj) = Ok dev /\
      nth_error (runtimePass top flat) 0 = Some before /\
      Name before = "a" /\ IsTransitive before = false /\
      flattenAndUniqDependencies sw pj = Ok out /\
      out = devPass dev (runtimePass top flat) /\
      nth_error out 0 = Some after /\
      Name after = "a" /\ IsTransitive after = true).
Proof.
  split.
  - intros element pre rest H. rewrite !scanDev_scan. apply scan_app. exact H.
  - exists (mkShrinkwrap (Some [("a", mkNode "1.0.0" false None);
                               ("b", mkNode "2.0.0" false None)])).
    do 7 eexists. repeat split; reflexivity.
Qed.

(** The scan for [b] over [a, b], with [a] marked direct beforehand. *)
Lemma devPass_reverts_direct_records_example :
  scanDev (mkNpmPackage "b" None "" false "dependency")
          ([mkNpmPackage "a" (Some "1.0.0") "" false "dependency"] ++
           [mkNpmPackage "b" (Some "2.0.0") "" true "dependency"]) =
  (map (set_IsTransitive true) [mkNpmPackage "a" (Some "1.0.0") "" false "dependency"] ++
   scanDev (mkNpmPackage "b" None "" false "dependency")
           [mkNpmPackage "b" (Some "2.0.0") "" true "dependency"])%list.
Proof.
  apply (proj1 devPass_reverts_direct_records).
  simpl. intros q [<-|[]]. simpl. discriminate.
Defined.

(** ** Flattening the tree *)

Lemma fold_left_push (l acc : list NpmPackage) :
  fold_left (fun result dependency => (result ++ [dependency])%list) l acc
  = (acc ++ l)%list.
Proof.
  revert acc; induction l as [|x l IH]; intros acc; simpl.
  - symmetry. apply app_nil_r.
  - rewrite IH, <- app_assoc. reflexivity.
Qed.

(** With any fuel the loop returns the records it was given: the read of
    [dependency.dependencies] is never truthy, so no recursive call is
    made and the fuel never runs out. *)
Lemma flattenDependencies_top_level (fuel : nat) (l : list NpmPackage) :
  flattenDependencies (S fuel) l = l.
Proof. simpl. unfold NpmPackage_dependencies. apply fold_left_push. Qed.

Lemma flattenAndUniqDependencies_eq (sw : ShrinkwrapContents) (pj : PackageJson)
      (t : JsObject ShrinkwrapNode) :
  sw_dependencies sw = Some t ->
  flattenAndUniqDependencies sw pj = reconcile pj (extractInfo t).
Proof.
  intros H. unfold flattenAndUniqDependencies. rewrite H.
  rewrite flattenDependencies_top_level. reflexivity.
Qed.

(** C3. On the tree and manifest of scenario C the code returns the record
    of [a] alone, marked direct and [dependency]; the nested [b] is not
    reached, where the flattening the specification words gives [a] then
    [b].  With the [devDependencies] key missing from the manifest the
    call throws instead. *)
Theorem scenario_C_returns_the_parent_only :
  flattenTree_spec scenario_C_tree =
    [mkNpmPackage "a" (Some "1.0.0") "" true "dependency";
     mkNpmPackage "b" (Some "2.0.0") "" true "dependency"] /\
  flattenAndUniqDependencies (mkShrinkwrap (Some scenario_C_tree))
                             (mkPackageJson (Some [("a", "^1.0.0")]) (Some []))
  = Ok [mkNpmPackage "a" (Some "1.0.0") "" false "dependency"] /\
  flattenAndUniqDependencies (mkShrinkwrap (Some scenario_C_tree))
                             (mkPackageJson (Some [("a", "^1.0.0")]) None)
  = Throw TypeError.
Proof. repeat split; reflexivity. Qed.

(** C9. A tree input without a [dependencies] key gives the empty
    sequence, whatever the manifest holds, and nothing is thrown. *)
Theorem no_dependencies_key_gives_empty (sw : ShrinkwrapContents) (pj : PackageJson) :
  sw_dependencies sw = None ->
  flattenAndUniqDependencies sw pj = Ok [].
Proof. intros H. unfold flattenAndUniqDependencies. rewrite H. reflexivity. Qed.

(** Neither file has a [dependencies] key. *)
Lemma no_dependencies_key_example :
  flattenAndUniqDependencies (mkShrinkwrap None) (mkPackageJson None None) = Ok [].
Proof.
  apply (no_dependencies_key_gives_empty (mkShrinkwrap None) (mkPackageJson None None)).
  reflexivity.
Defined.

(** The same through the entry point: the promise resolves with the empty
    array. *)
Lemma getDependencyArray_no_dependencies_key (w : World) (stdout stderr : string)
      (sw : ShrinkwrapContents) (pj : PackageJson) :
  exec w NPM_SHRINKWRAP_COMMAND = ExecDone stdout stderr ->
  negb (stdout =? "") || Js.search_found NPM_SHRINKWRAP_JSON stderr = true ->
  read_shrinkwrap w = Ok sw -> read_package_json w = Ok pj ->
  sw_dependencies sw = None ->
  getDependencyArray w NPM_SHRINKWRAP_JSON = Resolve [].
Proof.
  intros He Hs Hsw Hpj Hnone. unfold getDependencyArray.
  change (NPM_SHRINKWRAP_JSON =? YARN_LOCK) with false.
  rewrite String.eqb_refl. cbv iota.
  rewrite He. cbv zeta. rewrite Hs. cbv iota. simpl negb. cbv iota.
  rewrite Hsw, Hpj. unfold flattenAndUniqDependencies. rewrite Hnone. reflexivity.
Qed.

(** ** Order and uniqueness of the output *)

Lemma not_sorted_pair (p q : NpmPackage) :
  (Name p <=? Name q) = false -> ~ NameSorted [p; q].
Proof.
  intros H Hs. inversion Hs as [|? ? _ Hd]; subst.
  inversion Hd as [|? ? Hle]; subst. congruence.
Qed.

(** C1, on the tree path. For a tree whose keys are [abbrev] then
    [JSONStream] the promise resolves with the records in that order,
    which is not ascending by name: what is returned is the flattened
    array itself, neither sorted nor passed through [uniqBy]. *)
Theorem shrinkwrap_path_returns_unsorted :
  getDependencyArray
    (shrinkwrap_world (mkShrinkwrap (Some unordered_tree))
                      (mkPackageJson (Some []) (Some [])))
    NPM_SHRINKWRAP_JSON
  = Resolve [mkNpmPackage "abbrev" (Some "1.1.1") "" true "dependency";
             mkNpmPackage "JSONStream" (Some "1.3.5") "" true "dependency"] /\
  ~ NameSorted [mkNpmPackage "abbrev" (Some "1.1.1") "" true "dependency";
                mkNpmPackage "JSONStream" (Some "1.3.5") "" true "dependency"].
Proof.
  split; [reflexivity | apply not_sorted_pair; reflexivity].
Qed.

(** C2. [parseNpmList] keeps a line whose version is a range: the range
    filter is not applied on this path, where [parseYarnList] drops the
    same line. *)
Theorem parseNpmList_keeps_range_version :
  parseNpmList ("root" ++ LF ++ "`-- foo@^1.0.0")
  = [new_NpmPackage3 "foo" (Some "^1.0.0") ""] /\
  isRegularVersion "^1.0.0" = false /\
  parseYarnList ("root" ++ LF ++ "`-- foo@^1.0.0") = [].
Proof. repeat split; reflexivity. Qed.

(** The two line parsers do end with [uniqBy] and the sort. *)

Section UniqAndSort.

Context {A : Type} (key : A -> string).

Lemma existsb_eqb_In (k : string) (seen : list string) :
  existsb (String.eqb k) seen = true <-> In k seen.
Proof.
  rewrite existsb_exists. split.
  - intros (x & Hx & E). apply String.eqb_eq in E. congruence.
  - intros H. exists k. split; [exact H | apply String.eqb_refl].
Qed.

Lemma uniqByAux_keys (seen : list string) (a : list A) :
  NoDup (map key (Js.uniqByAux key seen a)) /\
  forall x, In x (Js.uniqByAux key seen a) -> ~ In (key x) seen.
Proof.
  revert seen; induction a as [|x a IH]; intros seen; simpl.
  - split; [constructor | intros x []].
  - destruct (existsb (String.eqb (key x)) seen) eqn:E; [apply IH|].
    destruct (IH (key x :: seen)) as [Hnd Hout]. split.
    + simpl. constructor; [|exact Hnd].
      intros Hin. apply in_map_iff in Hin as (y & Hy & Hin).
      apply (Hout y Hin). left. congruence.
    + intros y [<-|Hy].
      * intros Hin. apply existsb_eqb_In in Hin. congruence.
      * intros Hin. apply (Hout y Hy). right. exact Hin.
Qed.

Lemma uniqBy_NoDup (a : list A) : NoDup (map key (Js.uniqBy a key)).
Proof. apply uniqByAux_keys. Qed.

Variable cmp : A -> A -> Z.

Lemma sort_insert_perm (x : A) (l : list A) :
  Permutation (sort_insert cmp x l) (x :: l).
Proof.
  induction l as [|y l IH]; simpl; [reflexivity|].
  destruct (0 <? cmp x y)%Z; [|reflexivity].
  rewrite IH. apply perm_swap.
Qed.

Lemma Array_sort_perm (l : list A) : Permutation (Array_sort cmp l) l.
Proof.
  induction l as [|x l IH]; simpl; [reflexivity|].
  rewrite sort_insert_perm, IH. reflexivity.
Qed.

End UniqAndSort.

Lemma string_ltb_leb (a b : string) : (a <? b) = true -> (a <=? b) = true.
Proof. unfold String.ltb, String.leb. destruct (a ?= b); congruence. Qed.

Lemma string_not_ltb_leb (a b : string) : (b <? a) = false -> (a <=? b) = true.
Proof.
  unfold String.ltb, String.leb. rewrite (String.compare_antisym a b).
  destruct (b ?= a); simpl; congruence.
Qed.

Lemma string_ltb_irrefl (a : string) : (a <? a) = false.
Proof.
  unfold String.ltb. pose proof (String.compare_antisym a a) as H.
  destruct (a ?= a); simpl in H; congruence.
Qed.

Lemma compareNames_positive (x y : NpmPackage) :
  (0 <? compareNames x y)%Z = (Name y <? Name x).
Proof.
  unfold compareNames. destruct (Name y <? Name x); [reflexivity|].
  destruct (Name x <? Name y); reflexivity.
Qed.

Lemma sort_insert_sorted (x : NpmPackage) (l : list NpmPackage) :
  NameSorted l -> NameSorted (sort_insert compareNames x l).
Proof.
  unfold NameSorted. induction l as [|y l IH]; intros Hs; simpl.
  - repeat constructor.
  - rewrite compareNames_positive. inversion Hs as [|? ? Hl Hd]; subst.
    destruct (Name y <? Name x) eqn:E.
    + constructor; [exact (IH Hl)|].
      destruct l as [|z l]; simpl.
      * constructor. apply string_ltb_leb, E.
      * rewrite compareNames_positive. inversion Hd; subst.
        destruct (Name z <? Name x); constructor;
          [assumption | apply string_ltb_leb, E].
    + constructor; [exact Hs|]. constructor. apply string_not_ltb_leb, E.
Qed.

Lemma sortDependencyList_sorted (l : list NpmPackage) :
  NameSorted (sortDependencyList l).
Proof.
  unfold sortDependencyList, Array_sort.
  induction l as [|x l IH]; simpl; [constructor | apply sort_insert_sorted, IH].
Qed.

(** Stability: the records of one name keep their order. *)
Lemma sortDependencyList_stable (n : string) (l : list NpmPackage) :
  filter (fun p => Name p =? n) (sortDependencyList l)
  = filter (fun p => Name p =? n) l.
Proof.
  unfold sortDependencyList, Array_sort.
  induction l as [|x l IH]; simpl; [reflexivity|]. rewrite <- IH.
  generalize (fold_right (sort_insert compareNames) [] l). clear IH.
  intros s; induction s as [|y s IHs]; simpl; [reflexivity|].
  rewrite compareNames_positive. destruct (Name y <? Name x) eqn:E; [|reflexivity].
  simpl. rewrite IHs. simpl.
  destruct (String.eqb_spec (Name x) n) as [Ex|_],
           (String.eqb_spec (Name y) n) as [Ey|_]; try reflexivity.
  rewrite Ex, Ey, string_ltb_irrefl in E. discriminate.
Qed.

Lemma uniq_then_sort (l : list NpmPackage) :
  NoDup (map toPurl (sortDependencyList (Js.uniqBy l toPurl))) /\
  NameSorted (sortDependencyList (Js.uniqBy l toPurl)).
Proof.
  split; [|apply sortDependencyList_sorted].
  apply (Permutation_NoDup (l := map toPurl (Js.uniqBy l toPurl))).
  - apply Permutation_map, Permutation_sym, Array_sort_perm.
  - apply uniqBy_NoDup.
Qed.

Lemma parseYarnList_unique_and_sorted (output : string) :
  NoDup (map toPurl (parseYarnList output)) /\ NameSorted (parseYarnList output).
Proof. apply uniq_then_sort. Qed.

Lemma parseNpmList_unique_and_sorted (output : string) :
  NoDup (map toPurl (parseNpmList output)) /\ NameSorted (parseNpmList output).
Proof. apply uniq_then_sort. Qed.

Example scenario_A_tree_listing :
  parseYarnList ("root-project" ++ LF ++ "|- left-pad@1.3.0" ++ LF ++
                 "|- chalk@^4.0.0" ++ LF ++ "`- lodash@4.17.21")
  = [new_NpmPackage3 "left-pad" (Some "1.3.0") "";
     new_NpmPackage3 "lodash" (Some "4.17.21") ""].
Proof. reflexivity. Qed.

Example scenario_B_flat_listing :
  parseNpmList ("root" ++ LF ++ "express@4.18.0" ++ LF ++ "debug@4.3.4 deduped")
  = [new_NpmPackage3 "express" (Some "4.18.0") ""].
Proof. reflexivity. Qed.

(** ** The entry point and its refusals *)






(** * Further properties of the code *)

(** ** The comparison function and the sort *)

Lemma string_compare_refl (a : string) : (a ?= a) = Eq.
Proof.
  pose proof (String.compare_antisym a a) as H.
  destruct (a ?= a); simpl in H; congruence.
Qed.

(** The comparison function is a consistent one: swapping the arguments
    flips the sign, the answer is one of 1, 0, -1, and it is 0 exactly
    for two records of the same name, whatever their other fields. *)
Theorem compareNames_consistent (a b : NpmPackage) :
  compareNames a b = (- compareNames b a)%Z /\
  (compareNames a b = 0%Z <-> Name a = Name b) /\
  (compareNames a b = 1%Z \/ compareNames a b = 0%Z \/ compareNames a b = (-1)%Z).
Proof.
  unfold compareNames, String.ltb.
  rewrite (String.compare_antisym (Name b) (Name a)).
  destruct (Name a ?= Name b) eqn:E; simpl.
  - apply String.compare_eq_iff in E. repeat split; auto.
  - repeat split; auto; try discriminate.
    intros H. rewrite H, string_compare_refl in E. discriminate.
  - repeat split; auto; try discriminate.
    intros H. rewrite H, string_compare_refl in E. discriminate.
Qed.

(** [sortDependencyList] returns the records it was given, in ascending
    order of name, and the records of one name stay in the order they
    had. *)
Theorem sortDependencyList_stable_sort (l : list NpmPackage) :
  Permutation (sortDependencyList l) l /\
  NameSorted (sortDependencyList l) /\
  forall n, filter (fun p => Name p =? n) (sortDependencyList l)
            = filter (fun p => Name p =? n) l.
Proof.
  split; [apply Array_sort_perm|].
  split; [apply sortDependencyList_sorted|].
  intros n. apply sortDependencyList_stable.
Qed.

Lemma string_leb_not_ltb (a b : string) : (a <=? b) = true -> (b <? a) = false.
Proof.
  unfold String.ltb, String.leb. rewrite (String.compare_antisym b a).
  destruct (a ?= b); simpl; congruence.
Qed.

(** Sorting a list that is already in ascending order of name changes
    nothing; in particular sorting twice is sorting once. *)
Theorem sortDependencyList_fixes_sorted (l : list NpmPackage) :
  NameSorted l -> sortDependencyList l = l.
Proof.
  unfold sortDependencyList, Array_sort, NameSorted.
  induction l as [|x l IH]; intros Hs; simpl; [reflexivity|].
  inversion Hs as [|? ? Hl Hd]; subst. rewrite (IH Hl).
  destruct l as [|y l]; simpl; [reflexivity|].
  rewrite compareNames_positive. inversion Hd as [|? ? Hle]; subst.
  rewrite (string_leb_not_ltb _ _ Hle). reflexivity.
Qed.

(** Two records of one name, already in order. *)
Lemma sortDependencyList_fixes_sorted_example :
  sortDependencyList [new_NpmPackage3 "a" (Some "2.0.0") "";
                      new_NpmPackage3 "a" (Some "1.0.0") "";
                      new_NpmPackage3 "b" (Some "1.0.0") ""]
  = [new_NpmPackage3 "a" (Some "2.0.0") "";
     new_NpmPackage3 "a" (Some "1.0.0") "";
     new_NpmPackage3 "b" (Some "1.0.0") ""].
Proof.
  apply sortDependencyList_fixes_sorted.
  repeat constructor.
Defined.

(** ** Tokens, encoding and record construction *)

Lemma replace_eq (pat rep t : string) :
  Js.replace pat rep t =
  if prefix pat t then rep ++ Js.drop (String.length pat) t
  else match t with
       | EmptyString => EmptyString
       | String c t' => String c (Js.replace pat rep t')
       end.
Proof. destruct t; reflexivity. Qed.

Lemma replace_absent (pat rep s : string) :
  ~ Contains pat s -> Js.replace pat rep s = s.
Proof.
  induction s as [|c s IH]; intros H; rewrite replace_eq;
    destruct (prefix pat _) eqn:E.
  - exfalso. apply H. apply prefix_iff in E as [t Ht]. exists "", t. exact Ht.
  - reflexivity.
  - exfalso. apply H. apply prefix_iff in E as [t Ht]. exists "", t. exact Ht.
  - rewrite IH; [reflexivity|]. intros Hc. apply H, Contains_tail, Hc.
Qed.

Lemma replace_nonempty (s : string) : s <> "" -> Js.replace "%40" "@" s <> "".
Proof.
  intros H. rewrite replace_eq. destruct (prefix "%40" s); [discriminate|].
  destruct s; [contradiction | discriminate].
Qed.

Lemma removeScope_cases (t : string) :
  (exists r, t = String "@" r /\ removeScopeSymbolFromName t = "%40" ++ r) \/
  ((forall r, t <> String "@" r) /\ removeScopeSymbolFromName t = t).
Proof.
  destruct t as [|c t]; [right; split; [discriminate | reflexivity]|].
  destruct (Ascii.eqb_spec c "@") as [->|Hne].
  - left. exists t. split; [reflexivity | apply removeScope_scoped].
  - right. split; [congruence|].
    unfold removeScopeSymbolFromName, Js.substr.
    replace (substring 0 1 (String c t)) with (String c "")
      by (simpl; destruct t; reflexivity).
    destruct (String.eqb_spec (String c "") "@") as [E|_]; [congruence | reflexivity].
Qed.

Lemma removeScope_no_leading_at (t r : string) :
  removeScopeSymbolFromName t <> String "@" r.
Proof.
  destruct (removeScope_cases t) as [(r' & -> & ->)|(H & ->)];
    [discriminate | apply H].
Qed.

Lemma Contains_split_two (sep : ascii) (s : string) :
  Contains (String sep "") s -> exists a b r, Js.split sep s = a :: b :: r.
Proof.
  induction s as [|c s IH]; intros H.
  - destruct H as (pre & post & H). destruct pre; discriminate.
  - simpl. destruct (Ascii.eqb_spec c sep) as [->|Hne].
    + destruct (Js.split sep s) as [|b r] eqn:Es;
        [exfalso; exact (split_nonempty _ _ Es)|]. eauto.
    + apply Contains_unit_cons in H as [E|H]; [congruence|].
      destruct (IH H) as (a & b & r & ->). eauto.
Qed.

Lemma split_pieces_no_sep (sep : ascii) (s x : string) :
  In x (Js.split sep s) -> ~ Contains (String sep "") x.
Proof.
  revert x; induction s as [|c s IH]; intros x; simpl.
  - intros [<-|[]] (pre & post & H). destruct pre; discriminate.
  - destruct (Ascii.eqb_spec c sep) as [->|Hne].
    + intros [<-|Hin]; [|exact (IH x Hin)].
      intros (pre & post & H). destruct pre; discriminate.
    + destruct (Js.split sep s) as [|p ps] eqn:Es; simpl.
      * intros [<-|[]] H. apply Contains_unit_cons in H as [E|H]; [congruence|].
        destruct H as (pre & post & H). destruct pre; discriminate.
      * intros [<-|Hin]; [|apply IH; right; exact Hin].
        intros H. apply Contains_unit_cons in H as [E|H]; [congruence|].
        apply (IH p); [left; reflexivity | exact H].
Qed.

Lemma split_head_prefix (sep : ascii) (s v : string) (r : list string) :
  Js.split sep s = v :: r -> exists tail, s = v ++ tail.
Proof.
  revert v r; induction s as [|c s IH]; intros v r; simpl.
  - intros E; injection E as <- _. exists "". reflexivity.
  - destruct (Ascii.eqb_spec c sep) as [->|Hne].
    + intros E; injection E as <- _. exists (String sep s). reflexivity.
    + destruct (Js.split sep s) as [|p ps] eqn:Es.
      * intros E; injection E as <- _.
        exfalso. exact (split_nonempty _ _ Es).
      * intros E; injection E as <- _.
        destruct (IH p ps eq_refl) as [tail ->]. exists tail. reflexivity.
Qed.

Lemma Contains_trans (a b c : string) :
  Contains a b -> Contains b c -> Contains a c.
Proof.
  intros (p' & q' & ->) (p & q & ->).
  exists (p ++ p'), (q' ++ q). rewrite !append_assoc. reflexivity.
Qed.

(** What a successful construction says about the token. *)
Lemma setAndReturnNpmPackage_inv (splitParts : list string) (p : NpmPackage) :
  setAndReturnNpmPackage splitParts = Ok p ->
  exists name v r,
    Js.split "@" (removeScopeSymbolFromName (Js.lastOf splitParts)) = name :: v :: r /\
    name <> "" /\
    p = new_NpmPackage3 (Js.replace "%40" "@" name) (Some v) "".
Proof.
  unfold setAndReturnNpmPackage.
  destruct (Js.split "@" _) as [|name [|v r]] eqn:Es; simpl.
  - destruct (negb ("" =? "")); discriminate.
  - destruct (negb (name =? "")); discriminate.
  - destruct (String.eqb_spec name "") as [E|Hne]; simpl; [discriminate|].
    intros H; injection H as <-. exists name, v, r. auto.
Qed.

(** Construction succeeds exactly when the encoded token holds an [@]:
    the piece in front of it is then never empty, so the test on the
    name never decides alone.  A failure carries the encoded token in
    its message. *)
Theorem setAndReturnNpmPackage_outcome (pre : list string) (token : string) :
  ((exists p, setAndReturnNpmPackage (pre ++ [token])%list = Ok p) <->
   Contains "@" (removeScopeSymbolFromName token)) /\
  (setAndReturnNpmPackage (pre ++ [token])%list
   = Throw (Error ("No valid information, skipping dependency: "
                     ++ removeScopeSymbolFromName token)) <->
   ~ Contains "@" (removeScopeSymbolFromName token)).
Proof.
  assert (Hyes : Contains "@" (removeScopeSymbolFromName token) ->
                 exists p, setAndReturnNpmPackage (pre ++ [token])%list = Ok p).
  { intros H. destruct (Contains_split_two _ _ H) as (a & b & r & Es).
    destruct (split_two_pieces _ _ _ _ _ Es) as (Ha & rest & Henc & _).
    eexists. apply (setAndReturnNpmPackage_cut pre token a rest Henc Ha).
    intros ->. exact (removeScope_no_leading_at _ _ Henc). }
  assert (Hno : ~ Contains "@" (removeScopeSymbolFromName token) ->
                setAndReturnNpmPackage (pre ++ [token])%list
                = Throw (Error ("No valid information, skipping dependency: "
                                  ++ removeScopeSymbolFromName token))).
  { intros H. unfold setAndReturnNpmPackage.
    rewrite lastOf_snoc, (split_no_sep _ _ H). simpl.
    destruct (negb (_ =? "")); reflexivity. }
  split; split; auto.
  - intros [p Hp]. apply setAndReturnNpmPackage_inv in Hp as (name & v & r & Es & _).
    rewrite lastOf_snoc in Es.
    destruct (Js.includes "@" (removeScopeSymbolFromName token)) eqn:E;
      [apply includes_iff, E|].
    apply includes_false_iff, split_no_sep in E. congruence.
  - intros Hthrow Hc. destruct (Hyes Hc) as [p Hp]. congruence.
Qed.

(** An unscoped token [name@version]: when the name is not empty and
    holds no [@] and no [%40], and the version holds no [@], the record
    has exactly that name and that version. *)
Theorem unscoped_token_round_trips (pre : list string) (name version : string) :
  name <> "" -> ~ Contains "@" name -> ~ Contains "%40" name ->
  ~ Contains "@" version ->
  setAndReturnNpmPackage (pre ++ [(name ++ "@" ++ version)%string])%list
  = Ok (new_NpmPackage3 name (Some version) "").
Proof.
  intros Hne Hat Henc Hv.
  rewrite (setAndReturnNpmPackage_cut pre _ name version); auto.
  - rewrite (replace_absent _ _ _ Henc), (split_no_sep _ _ Hv). reflexivity.
  - destruct (removeScope_cases (name ++ "@" ++ version)) as [(r & E & _)|(_ & E)];
      [|exact E].
    destruct name as [|c name]; [contradiction|]. simpl in E. injection E as -> _.
    exfalso. apply Hat, Contains_head.
Qed.

(** Scenario A's first package. *)
Lemma unscoped_token_round_trips_example :
  setAndReturnNpmPackage ["|-"; "left-pad@1.3.0"]
  = Ok (new_NpmPackage3 "left-pad" (Some "1.3.0") "").
Proof.
  apply (unscoped_token_round_trips ["|-"] "left-pad" "1.3.0").
  - discriminate.
  - apply includes_false_iff. reflexivity.
  - apply includes_false_iff. reflexivity.
  - apply includes_false_iff. reflexivity.
Defined.

(** Decoding undoes the encoding of the scope marker for every token that
    begins with [@], and for every token that holds no [%40]. *)
Theorem scope_marker_decodes (token : string) :
  (exists r, token = String "@" r) \/ ~ Contains "%40" token ->
  Js.replace "%40" "@" (removeScopeSymbolFromName token) = token.
Proof.
  intros H.
  destruct (removeScope_cases token) as [(r & -> & ->)|(Hn & ->)].
  - apply replace_at_start.
  - destruct H as [(r & E)|H]; [|apply replace_absent, H].
    exfalso. exact (Hn r E).
Qed.

Lemma scope_marker_decodes_example :
  Js.replace "%40" "@" (removeScopeSymbolFromName "@types/node%40x") = "@types/node%40x".
Proof.
  apply scope_marker_decodes. left. eexists. reflexivity.
Defined.

(** ** The version classifier on pieces of a token *)

Lemma isRegularVersion_true_iff (v : string) :
  isRegularVersion v = true <->
  Js.includes "^" v = false /\ Js.includes ">=" v = false /\
  Js.includes "<=" v = false /\ Js.includes "~" v = false /\
  Js.includes "<" v = false /\ Js.includes ">" v = false.
Proof.
  unfold isRegularVersion.
  destruct (Js.includes "^" v), (Js.includes ">=" v), (Js.includes "<=" v),
    (Js.includes "~" v), (Js.includes "<" v), (Js.includes ">" v);
    cbv iota; intuition congruence.
Qed.

Lemma includes_false_substring (op v s : string) :
  Contains v s -> Js.includes op s = false -> Js.includes op v = false.
Proof.
  intros Hvs Hs. apply includes_false_iff. intros Hv.
  apply includes_false_iff in Hs. apply Hs. exact (Contains_trans _ _ _ Hv Hvs).
Qed.

Lemma isRegularVersion_substring (v s : string) :
  Contains v s -> isRegularVersion s = true -> isRegularVersion v = true.
Proof.
  intros Hvs Hs. apply isRegularVersion_true_iff in Hs.
  apply isRegularVersion_true_iff.
  repeat match goal with H : _ /\ _ |- _ => destruct H end.
  repeat split; eapply includes_false_substring; eauto.
Qed.

Lemma isRegularVersion_encoded (token : string) :
  isRegularVersion (removeScopeSymbolFromName token) = isRegularVersion token.
Proof.
  destruct (removeScope_cases token) as [(r & -> & ->)|(_ & ->)]; reflexivity.
Qed.

Lemma isRegularVersion_no_operator (v : string) :
  isRegularVersion v = true -> ~ HasRangeOperator v.
Proof.
  intros H. apply isRegularVersion_true_iff in H.
  unfold HasRangeOperator. rewrite <- !includes_iff.
  intuition congruence.
Qed.

(** A token the classifier accepts has only pieces it accepts, and the
    encoding of the scope marker does not change the answer. *)
Theorem isRegularVersion_pieces :
  (forall v s, Contains v s -> isRegularVersion s = true -> isRegularVersion v = true) /\
  (forall token,
      isRegularVersion (removeScopeSymbolFromName token) = isRegularVersion token).
Proof. split; [exact isRegularVersion_substring | exact isRegularVersion_encoded]. Qed.

Lemma isRegularVersion_pieces_example :
  isRegularVersion "4.17.21" = true.
Proof.
  apply (proj1 isRegularVersion_pieces "4.17.21" "lodash@4.17.21").
  - exists "lodash@", "". reflexivity.
  - reflexivity.
Defined.

(** ** What the two parsers return *)

Lemma forEach_from_invariant {A S : Type} (Q : S -> Prop) (f : S -> A -> nat -> S)
      (a : list A) :
  (forall st x i, Q st -> Q (f st x i)) ->
  forall index st, Q st -> Q (forEach_from f index a st).
Proof.
  intros Hf. induction a as [|x a IH]; intros index st Hst; simpl; auto.
Qed.

Lemma uniqByAux_subset {A : Type} (key : A -> string) (seen : list string)
      (a : list A) (x : A) :
  In x (Js.uniqByAux key seen a) -> In x a.
Proof.
  revert seen; induction a as [|y a IH]; intros seen; simpl; [auto|].
  destruct (existsb _ seen); simpl; intuition eauto.
Qed.

Lemma In_sorted_uniq (l : list NpmPackage) (p : NpmPackage) :
  In p (sortDependencyList (Js.uniqBy l toPurl)) -> In p l.
Proof.
  intros H. apply (Permutation_in _ (Array_sort_perm compareNames _)) in H.
  exact (uniqByAux_subset _ _ _ _ H).
Qed.

Lemma setAndReturnNpmPackage_Built (splitParts : list string) (p : NpmPackage) :
  setAndReturnNpmPackage splitParts = Ok p -> Built (Js.lastOf splitParts) p.
Proof.
  intros H. apply setAndReturnNpmPackage_inv in H as (name & v & r & Es & Hne & ->).
  unfold Built, new_NpmPackage3. simpl. repeat split; auto.
  - apply replace_nonempty, Hne.
  - exists v. split; [reflexivity|]. split.
    + apply (split_pieces_no_sep "@" (removeScopeSymbolFromName (Js.lastOf splitParts))).
      rewrite Es. right. left. reflexivity.
    + destruct (split_two_pieces _ _ _ _ _ Es) as (_ & rest & -> & Hrest).
      destruct (split_head_prefix _ _ _ _ Hrest) as [tail ->].
      exists (name ++ "@"), tail. rewrite !append_assoc. reflexivity.
Qed.

Lemma yarn_lines_built (results : list string) (p : NpmPackage) :
  In p (forEach results yarnListLine []) ->
  exists token, Built token p /\ isRegularVersion token = true.
Proof.
  revert p. unfold forEach.
  apply (forEach_from_invariant
           (fun acc => forall p, In p acc ->
                                 exists token, Built token p /\ isRegularVersion token = true));
    [|intros p []].
  intros acc dep i Hacc p. unfold yarnListLine.
  destruct (i =? 0)%nat; [apply Hacc|]. cbv zeta.
  destruct (isRegularVersion _) eqn:Hreg; simpl; [|apply Hacc].
  destruct (setAndReturnNpmPackage _) as [q|e] eqn:Hq; [|apply Hacc].
  intros Hin. apply in_app_or in Hin as [Hin|[<-|[]]]; [exact (Hacc p Hin)|].
  eexists. split; [exact (setAndReturnNpmPackage_Built _ _ Hq) | exact Hreg].
Qed.

Lemma npm_lines_built (results : list string) (p : NpmPackage) :
  In p (forEach results npmListLine []) -> exists token, Built token p.
Proof.
  revert p. unfold forEach.
  apply (forEach_from_invariant
           (fun acc => forall p, In p acc -> exists token, Built token p));
    [|intros p []].
  intros acc dep i Hacc p. unfold npmListLine.
  destruct (i =? 0)%nat; [apply Hacc|]. cbv zeta.
  destruct (_ =? "deduped"); [apply Hacc|].
  destruct (setAndReturnNpmPackage _) as [q|e] eqn:Hq; [|apply Hacc].
  intros Hin. apply in_app_or in Hin as [Hin|[<-|[]]]; [exact (Hacc p Hin)|].
  eexists. exact (setAndReturnNpmPackage_Built _ _ Hq).
Qed.

(** Every record [parseYarnList] returns has a name that is not empty, an
    empty hash, and a version that holds no [@] and none of the range
    operators. *)
Theorem parseYarnList_records_pinned (output : string) (p : NpmPackage) :
  In p (parseYarnList output) ->
  Name p <> "" /\ Hash p = "" /\
  exists v, Version p = Some v /\ ~ Contains "@" v /\ ~ HasRangeOperator v.
Proof.
  intros H. apply In_sorted_uniq, yarn_lines_built in H
    as (token & (Hn & (v & Hv & Hat & Hsub) & Hh & _) & Hreg).
  repeat split; auto. exists v. repeat split; auto.
  apply isRegularVersion_no_operator.
  apply (isRegularVersion_substring v (removeScopeSymbolFromName token) Hsub).
  rewrite isRegularVersion_encoded. exact Hreg.
Qed.

Lemma parseYarnList_records_pinned_example :
  Name (new_NpmPackage3 "lodash" (Some "4.17.21") "") <> "" /\
  Hash (new_NpmPackage3 "lodash" (Some "4.17.21") "") = "" /\
  exists v, Version (new_NpmPackage3 "lodash" (Some "4.17.21") "") = Some v /\
            ~ Contains "@" v /\ ~ HasRangeOperator v.
Proof.
  apply (parseYarnList_records_pinned
           ("root" ++ LF ++ "|- chalk@^4.0.0" ++ LF ++ "`- lodash@4.17.21")).
  left. reflexivity.
Defined.

(** Every record [parseNpmList] returns has a name that is not empty, an
    empty hash, and a version that holds no [@]. *)
Theorem parseNpmList_records_shaped (output : string) (p : NpmPackage) :
  In p (parseNpmList output) ->
  Name p <> "" /\ Hash p = "" /\
  exists v, Version p = Some v /\ ~ Contains "@" v.
Proof.
  intros H. apply In_sorted_uniq, npm_lines_built in H
    as (token & Hn & (v & Hv & Hat & _) & Hh & _).
  repeat split; auto. exists v. auto.
Qed.

Lemma parseNpmList_records_shaped_example :
  Name (new_NpmPackage3 "express" (Some "4.18.0") "") <> "" /\
  Hash (new_NpmPackage3 "express" (Some "4.18.0") "") = "" /\
  exists v, Version (new_NpmPackage3 "express" (Some "4.18.0") "") = Some v /\
            ~ Contains "@" v.
Proof.
  apply (parseNpmList_records_shaped
           ("root" ++ LF ++ "express@4.18.0" ++ LF ++ "debug@4.3.4 deduped")).
  left. reflexivity.
Defined.

Lemma NoDup_map_inj_on {A B : Type} (f : A -> B) (l : list A) :
  (forall x y, In x l -> In y l -> f x = f y -> x = y) ->
  NoDup l -> NoDup (map f l).
Proof.
  induction l as [|x l IH]; intros Hinj Hnd; simpl; [constructor|].
  inversion Hnd as [|? ? Hx Hl]; subst. constructor.
  - intros Hin. apply in_map_iff in Hin as (y & Hy & Hin).
    apply Hx. rewrite (Hinj x y); auto; [left; reflexivity | right; exact Hin].
  - apply IH; [|exact Hl]. intros a b Ha Hb. apply Hinj; right; assumption.
Qed.

Lemma Built_same_pair (t t' : string) (p q : NpmPackage) :
  Built t p -> Built t' q ->
  (Name p, Version p) = (Name q, Version q) -> p = q.
Proof.
  intros (_ & _ & Hh & Ht & Hd) (_ & _ & Hh' & Ht' & Hd') E.
  injection E as En Ev. destruct p, q; simpl in *. congruence.
Qed.

Lemma sorted_distinct_pairs (l : list NpmPackage) :
  (forall p, In p l -> exists token, Built token p) ->
  NameSorted (sortDependencyList (Js.uniqBy l toPurl)) /\
  NoDup (map (fun p => (Name p, Version p)) (sortDependencyList (Js.uniqBy l toPurl))).
Proof.
  intros HB. destruct (uniq_then_sort l) as [Hnd Hs]. split; [exact Hs|].
  apply NoDup_map_inj_on; [|exact (NoDup_map_inv _ _ Hnd)].
  intros x y Hx Hy E.
  destruct (HB x (In_sorted_uniq _ _ Hx)) as [t Ht].
  destruct (HB y (In_sorted_uniq _ _ Hy)) as [t' Ht'].
  exact (Built_same_pair _ _ _ _ Ht Ht' E).
Qed.

(** [parseYarnList] returns its records in ascending order of name, and
    no two of them have the same name and version. *)
Theorem parseYarnList_sorted_distinct (output : string) :
  NameSorted (parseYarnList output) /\
  NoDup (map (fun p => (Name p, Version p)) (parseYarnList output)).
Proof.
  apply sorted_distinct_pairs. intros p Hp.
  destruct (yarn_lines_built _ _ Hp) as (t & Ht & _). eauto.
Qed.

(** [parseNpmList] returns its records in ascending order of name, and no
    two of them have the same name and version. *)
Theorem parseNpmList_sorted_distinct (output : string) :
  NameSorted (parseNpmList output) /\
  NoDup (map (fun p => (Name p, Version p)) (parseNpmList output)).
Proof. apply sorted_distinct_pairs. apply npm_lines_built. Qed.

Lemma forEach_header {S : Type} (f : S -> string -> nat -> S) (h : string)
      (rest : list string) (st : S) :
  f st h 0 = st -> forEach (h :: rest) f st = forEach_from f 1 rest st.
Proof. intros H. unfold forEach. simpl. rewrite H. reflexivity. Qed.

Lemma split_lines_header (h rest : string) :
  ~ Contains LF h -> Js.split "010" (h ++ LF ++ rest) = h :: Js.split "010" rest.
Proof. intros H. apply (split_at_first_sep "010" h rest H). Qed.

(** The first line of the listing never contributes: two outputs that
    differ in their first line only give the same records, for either
    parser, and an output of one line gives none. *)
Theorem parsers_skip_first_line (h h' rest : string) :
  ~ Contains LF h -> ~ Contains LF h' ->
  parseYarnList (h ++ LF ++ rest) = parseYarnList (h' ++ LF ++ rest) /\
  parseNpmList (h ++ LF ++ rest) = parseNpmList (h' ++ LF ++ rest) /\
  parseYarnList h = [] /\ parseNpmList h = [].
Proof.
  intros H H'. unfold parseYarnList, parseNpmList.
  rewrite !split_lines_header, !(split_no_sep "010" h) by assumption.
  rewrite !forEach_header by reflexivity.
  repeat split; reflexivity.
Qed.

Lemma parsers_skip_first_line_example :
  parseYarnList ("yarn list v1.22.19" ++ LF ++ "|- left-pad@1.3.0")
  = parseYarnList ("left-pad@9.9.9" ++ LF ++ "|- left-pad@1.3.0") /\
  parseNpmList ("yarn list v1.22.19" ++ LF ++ "|- left-pad@1.3.0")
  = parseNpmList ("left-pad@9.9.9" ++ LF ++ "|- left-pad@1.3.0") /\
  parseYarnList "yarn list v1.22.19" = [] /\ parseNpmList "yarn list v1.22.19" = [].
Proof.
  apply (parsers_skip_first_line "yarn list v1.22.19" "left-pad@9.9.9" "|- left-pad@1.3.0");
    apply includes_false_iff; reflexivity.
Defined.

(** ** What reconciliation keeps and what it changes *)

Lemma scan_identity (tag name : string) (flat : list NpmPackage) :
  map (fun p => (Name p, Version p, Hash p)) (scan tag name flat)
  = map (fun p => (Name p, Version p, Hash p)) flat.
Proof.
  induction flat as [|e rest IH]; simpl; [reflexivity|].
  destruct (Name e =? name); simpl; [reflexivity | rewrite IH; reflexivity].
Qed.

Lemma runtimePass_identity (top flat : list NpmPackage) :
  map (fun p => (Name p, Version p, Hash p)) (runtimePass top flat)
  = map (fun p => (Name p, Version p, Hash p)) flat.
Proof.
  unfold runtimePass. revert flat; induction top as [|x top IH]; intros flat; simpl;
    [reflexivity|]. rewrite IH, scanTopLevel_scan. apply scan_identity.
Qed.

Lemma devPass_identity (dev flat : list NpmPackage) :
  map (fun p => (Name p, Version p, Hash p)) (devPass dev flat)
  = map (fun p => (Name p, Version p, Hash p)) flat.
Proof.
  unfold devPass. revert flat; induction dev as [|x dev IH]; intros flat; simpl;
    [reflexivity|]. rewrite IH, scanDev_scan. apply scan_identity.
Qed.

Lemma reconcile_Ok_inv (pj : PackageJson) (flat out : list NpmPackage) :
  reconcile pj flat = Ok out ->
  exists deps devs top dev,
    pj_dependencies pj = Some deps /\ pj_devDependencies pj = Some devs /\
    extractPackageJsonInfo (Some deps) = Ok top /\ map Name top = keys deps /\
    extractPackageJsonInfo (Some devs) = Ok dev /\ map Name dev = keys devs /\
    out = devPass dev (runtimePass top flat).
Proof.
  unfold reconcile.
  destruct (pj_dependencies pj) as [deps|]; [|discriminate].
  destruct (pj_devDependencies pj) as [devs|]; [|discriminate].
  destruct (extractPackageJsonInfo_names deps) as (top & Htop & Hn).
  destruct (extractPackageJsonInfo_names devs) as (dev & Hdev & Hn').
  rewrite Htop, Hdev. simpl. intros H; injection H as <-.
  exists deps, devs, top, dev. auto 10.
Qed.

Lemma reconcile_Ok (pj : PackageJson) (deps devs : JsObject string)
      (flat : list NpmPackage) :
  pj_dependencies pj = Some deps -> pj_devDependencies pj = Some devs ->
  exists out, reconcile pj flat = Ok out.
Proof.
  intros Hd Hv. unfold reconcile. rewrite Hd, Hv. simpl. eauto.
Qed.

(** Reconciliation returns as many records as it was given, in the same
    order, each with the name, version and hash it had: the passes only
    ever write the two flags. *)
Theorem reconcile_keeps_identity (pj : PackageJson) (flat out : list NpmPackage) :
  reconcile pj flat = Ok out ->
  map (fun p => (Name p, Version p, Hash p)) out
  = map (fun p => (Name p, Version p, Hash p)) flat.
Proof.
  intros H. apply reconcile_Ok_inv in H
    as (deps & devs & top & dev & _ & _ & _ & _ & _ & _ & ->).
  rewrite devPass_identity. apply runtimePass_identity.
Qed.

Lemma reconcile_keeps_identity_example :
  reconcile (mkPackageJson (Some [("c", "1")]) (Some [("b", "2")]))
            [mkNpmPackage "a" (Some "1.0.0") "" false "dependency";
             mkNpmPackage "b" (Some "2.0.0") "h" false "dependency"]
  = Ok [mkNpmPackage "a" (Some "1.0.0") "" true "dependency";
        mkNpmPackage "b" (Some "2.0.0") "h" false "devDependency"] /\
  map (fun p => (Name p, Version p, Hash p))
      [mkNpmPackage "a" (Some "1.0.0") "" true "dependency";
       mkNpmPackage "b" (Some "2.0.0") "h" false "devDependency"]
  = map (fun p => (Name p, Version p, Hash p))
        [mkNpmPackage "a" (Some "1.0.0") "" false "dependency";
         mkNpmPackage "b" (Some "2.0.0") "h" false "dependency"].
Proof.
  split; [reflexivity|].
  apply (reconcile_keeps_identity
           (mkPackageJson (Some [("c", "1")]) (Some [("b", "2")]))).
  reflexivity.
Defined.

Lemma extractInfo_identity (t : JsObject ShrinkwrapNode) :
  map (fun p => (Name p, Version p, Hash p)) (extractInfo t)
  = map (fun kv => (fst kv, Some (node_version (snd kv)), "")) t.
Proof.
  unfold extractInfo. rewrite map_map. apply map_ext. intros [k n]. reflexivity.
Qed.

(** With both maps in the manifest, the tree path returns one record per
    key of the root [dependencies] map, in the order of the keys, named by
    the key and versioned by its node; nothing is returned for the maps
    nested under the nodes. *)
Theorem tree_path_returns_top_level (sw : ShrinkwrapContents) (pj : PackageJson)
        (t : JsObject ShrinkwrapNode) (deps devs : JsObject string) :
  sw_dependencies sw = Some t ->
  pj_dependencies pj = Some deps -> pj_devDependencies pj = Some devs ->
  exists out,
    flattenAndUniqDependencies sw pj = Ok out /\
    map (fun p => (Name p, Version p, Hash p)) out
    = map (fun kv => (fst kv, Some (node_version (snd kv)), "")) t.
Proof.
  intros Ht Hd Hv. rewrite (flattenAndUniqDependencies_eq sw pj t Ht).
  destruct (reconcile_Ok pj deps devs (extractInfo t) Hd Hv) as [out Hout].
  exists out. split; [exact Hout|].
  apply reconcile_Ok_inv in Hout
    as (? & ? & top & dev & _ & _ & _ & _ & _ & _ & ->).
  rewrite devPass_identity, runtimePass_identity. apply extractInfo_identity.
Qed.

Lemma tree_path_returns_top_level_example :
  exists out,
    flattenAndUniqDependencies (mkShrinkwrap (Some scenario_C_tree))
                               (mkPackageJson (Some [("a", "^1.0.0")]) (Some []))
    = Ok out /\
    map (fun p => (Name p, Version p, Hash p)) out
    = map (fun kv => (fst kv, Some (node_version (snd kv)), "")) scenario_C_tree.
Proof.
  apply (tree_path_returns_top_level _ _ scenario_C_tree [("a", "^1.0.0")] []);
    reflexivity.
Defined.

(** The call throws exactly when the tree has a [dependencies] map and
    the manifest lacks [dependencies] or [devDependencies]; what is thrown
    is the [TypeError] of [Object.keys(undefined)]. *)
Theorem flattenAndUniqDependencies_throws_iff (sw : ShrinkwrapContents)
        (pj : PackageJson) (e : Exn) :
  flattenAndUniqDependencies sw pj = Throw e <->
  e = TypeError /\ sw_dependencies sw <> None /\
  (pj_dependencies pj = None \/ pj_devDependencies pj = None).
Proof.
  unfold flattenAndUniqDependencies, reconcile.
  destruct (sw_dependencies sw) as [t|]; cbv zeta.
  - destruct (pj_dependencies pj) as [deps|], (pj_devDependencies pj) as [devs|];
      simpl; split;
      try (intros H; injection H as <-; repeat split; auto; discriminate);
      try (intros (-> & _ & _); reflexivity);
      try discriminate.
    intros (_ & _ & [H|H]); discriminate.
  - split; [discriminate | intros (_ & H & _); contradiction].
Qed.

Lemma set_IsTransitive_true_id (p : NpmPackage) :
  IsTransitive p = true -> set_IsTransitive true p = p.
Proof. destruct p; simpl; intros ->; reflexivity. Qed.

(** A scan leaves a transitive record of another name as it is. *)
Lemma scan_other (tag name : string) (flat : list NpmPackage) (i : nat) (p : NpmPackage) :
  nth_error flat i = Some p -> Name p <> name -> IsTransitive p = true ->
  nth_error (scan tag name flat) i = Some p.
Proof.
  revert i; induction flat as [|e rest IH]; intros [|i] Hi Hn Ht; simpl in *;
    try discriminate.
  - injection Hi as ->. apply String.eqb_neq in Hn. rewrite Hn. simpl.
    rewrite set_IsTransitive_true_id by exact Ht. reflexivity.
  - destruct (Name e =? name); simpl; [exact Hi | exact (IH i Hi Hn Ht)].
Qed.

(** A scan leaves the tag of a record of another name as it is. *)
Lemma scan_other_tag (tag name : string) (flat : list NpmPackage) (i : nat)
      (p : NpmPackage) :
  nth_error flat i = Some p -> Name p <> name ->
  exists p', nth_error (scan tag name flat) i = Some p' /\
             Name p' = Name p /\ DependencyType p' = DependencyType p.
Proof.
  revert i; induction flat as [|e rest IH]; intros [|i] Hi Hn; simpl in *;
    try discriminate.
  - injection Hi as ->. apply String.eqb_neq in Hn. rewrite Hn. simpl. eauto.
  - destruct (Name e =? name); simpl; eauto.
Qed.

Lemma pass_other (tag : string) (declared flat : list NpmPackage) (i : nat)
      (p : NpmPackage) :
  nth_error flat i = Some p -> ~ In (Name p) (map Name declared) ->
  IsTransitive p = true ->
  nth_error (fold_left (fun f x => scan tag (Name x) f) declared flat) i = Some p.
Proof.
  revert flat; induction declared as [|x declared IH]; intros flat Hi Hn Ht; simpl;
    [exact Hi|].
  apply IH; [|intros H; apply Hn; right; exact H | exact Ht].
  apply scan_other; [exact Hi | intros E; apply Hn; left; symmetry; exact E | exact Ht].
Qed.

Lemma pass_other_tag (tag : string) (declared flat : list NpmPackage) (i : nat)
      (p : NpmPackage) :
  nth_error flat i = Some p -> ~ In (Name p) (map Name declared) ->
  exists p', nth_error (fold_left (fun f x => scan tag (Name x) f) declared flat) i
             = Some p' /\
             Name p' = Name p /\ DependencyType p' = DependencyType p.
Proof.
  revert flat p; induction declared as [|x declared IH]; intros flat p Hi Hn; simpl;
    [eauto|].
  destruct (scan_other_tag tag (Name x) flat i p Hi) as (p1 & H1 & Hn1 & Ht1).
  { intros E. apply Hn. left. symmetry. exact E. }
  destruct (IH _ p1 H1) as (p2 & H2 & Hn2 & Ht2).
  { rewrite Hn1. intros H. apply Hn. right. exact H. }
  exists p2. repeat split; congruence.
Qed.

Lemma runtimePass_fold (top flat : list NpmPackage) :
  runtimePass top flat = fold_left (fun f x => scan "dependency" (Name x) f) top flat.
Proof.
  unfold runtimePass. revert flat; induction top as [|x top IH]; intros flat; simpl;
    [reflexivity|]. rewrite scanTopLevel_scan. apply IH.
Qed.

Lemma devPass_fold (dev flat : list NpmPackage) :
  devPass dev flat = fold_left (fun f x => scan "devDependency" (Name x) f) dev flat.
Proof.
  unfold devPass. revert flat; induction dev as [|x dev IH]; intros flat; simpl;
    [reflexivity|]. rewrite scanDev_scan. apply IH.
Qed.

Lemma extractInfo_transitive (t : JsObject ShrinkwrapNode) (i : nat) (p : NpmPackage) :
  nth_error (extractInfo t) i = Some p -> IsTransitive p = true.
Proof.
  unfold extractInfo. intros H. apply nth_error_In, in_map_iff in H as ([k n] & <- & _).
  reflexivity.
Qed.

(** On the tree path, a record whose name is declared in neither map of
    the manifest comes back exactly as [extractInfo] built it:
    transitive, and tagged by the [dev] mark of its node. *)
Theorem undeclared_records_unchanged (sw : ShrinkwrapContents) (pj : PackageJson)
        (t : JsObject ShrinkwrapNode) (deps devs : JsObject string)
        (i : nat) (p : NpmPackage) :
  sw_dependencies sw = Some t ->
  pj_dependencies pj = Some deps -> pj_devDependencies pj = Some devs ->
  nth_error (extractInfo t) i = Some p ->
  ~ In (Name p) (keys deps) -> ~ In (Name p) (keys devs) ->
  exists out, flattenAndUniqDependencies sw pj = Ok out /\ nth_error out i = Some p.
Proof.
  intros Ht Hd Hv Hi Hn1 Hn2. rewrite (flattenAndUniqDependencies_eq sw pj t Ht).
  destruct (reconcile_Ok pj deps devs (extractInfo t) Hd Hv) as [out Hout].
  exists out. split; [exact Hout|].
  apply reconcile_Ok_inv in Hout
    as (deps' & devs' & top & dev & Hd' & Hv' & _ & Hnt & _ & Hnd & ->).
  assert (deps' = deps) by congruence. assert (devs' = devs) by congruence. subst.
  rewrite devPass_fold, runtimePass_fold.
  apply pass_other; [|rewrite Hnd; exact Hn2 | exact (extractInfo_transitive _ _ _ Hi)].
  apply pass_other; [exact Hi | rewrite Hnt; exact Hn1 | exact (extractInfo_transitive _ _ _ Hi)].
Qed.

Lemma undeclared_records_unchanged_example :
  exists out,
    flattenAndUniqDependencies
      (mkShrinkwrap (Some [("a", mkNode "1.0.0" false None);
                           ("b", mkNode "2.0.0" true None)]))
      (mkPackageJson (Some [("a", "^1.0.0")]) (Some []))
    = Ok out /\
    nth_error out 1 = Some (mkNpmPackage "b" (Some "2.0.0") "" true "devDependency").
Proof.
  apply (undeclared_records_unchanged _ _
           [("a", mkNode "1.0.0" false None); ("b", mkNode "2.0.0" true None)]
           [("a", "^1.0.0")] []); try reflexivity.
  - simpl. intros [E|[]]. discriminate.
  - simpl. intros [].
Defined.

(** A name declared in [dependencies] and not in [devDependencies]: the
    first flattened record of that name ends tagged [dependency], also
    when its node carried the [dev] mark. *)
Theorem declared_runtime_only_ends_dependency
        (pj : PackageJson) (deps devs : JsObject string)
        (flat pre post : list NpmPackage) (e : NpmPackage) (n : string) :
  pj_dependencies pj = Some deps -> pj_devDependencies pj = Some devs ->
  In n (keys deps) -> ~ In n (keys devs) ->
  flat = (pre ++ e :: post)%list -> Name e = n ->
  (forall q, In q pre -> Name q <> n) ->
  exists out last,
    reconcile pj flat = Ok out /\
    nth_error out (length pre) = Some last /\
    Name last = n /\ DependencyType last = "dependency".
Proof.
  intros Hd Hv Hin Hnin Hflat He Hpre.
  destruct (reconcile_Ok pj deps devs flat Hd Hv) as [out Hout].
  exists out.
  pose proof Hout as Hinv. apply reconcile_Ok_inv in Hinv
    as (deps' & devs' & top & dev & Hd' & Hv' & _ & Hnt & _ & Hnd & ->).
  assert (deps' = deps) by congruence. assert (devs' = devs) by congruence. subst deps' devs'.
  rewrite <- Hnt in Hin.
  destruct (pass_tags_first_match "dependency" runtimePass top flat pre post e n
              runtimePass_app runtimePass_names runtimePass_one runtimePass_keeps_tag
              Hin Hflat He Hpre) as (mid & Hmid & Hmidt).
  assert (Hi : nth_error flat (length pre) = Some e).
  { rewrite Hflat, nth_error_app2, Nat.sub_diag by lia. reflexivity. }
  assert (Hmidn : Name mid = n).
  { rewrite (same_names_nth _ _ _ _ _ (runtimePass_names top flat) Hmid Hi). exact He. }
  destruct (pass_other_tag "devDependency" dev _ _ mid Hmid) as (last & Hlast & Hln & Hlt).
  { rewrite Hmidn, Hnd. exact Hnin. }
  exists last. rewrite devPass_fold. repeat split; try congruence.
  rewrite <- devPass_fold. exact Hout.
Qed.

Lemma declared_runtime_only_example :
  exists out last,
    reconcile (mkPackageJson (Some [("a", "^1.0.0")]) (Some []))
              (extractInfo [("a", mkNode "1.0.0" true None)]) = Ok out /\
    nth_error out 0 = Some last /\
    Name last = "a" /\ DependencyType last = "dependency".
Proof.
  apply (declared_runtime_only_ends_dependency
           (mkPackageJson (Some [("a", "^1.0.0")]) (Some []))
           [("a", "^1.0.0")] []
           (extractInfo [("a", mkNode "1.0.0" true None)])
           [] [] (mkNpmPackage "a" (Some "1.0.0") "" true "devDependency") "a");
    try reflexivity.
  - simpl. left. reflexivity.
  - simpl. intros [].
  - intros q [].
Defined.

Lemma extractPackageJsonInfo_snoc (o : JsObject string) (k v : string) :
  exists l x, extractPackageJsonInfo (Some (o ++ [(k, v)])%list) = Ok (l ++ [x])%list /\
              Name x = k.
Proof.
  unfold extractPackageJsonInfo. rewrite map_app. simpl.
  eexists. eexists. split; reflexivity.
Qed.

Lemma scan_no_match (tag name : string) (flat : list NpmPackage) :
  (forall q, In q flat -> Name q <> name) ->
  scan tag name flat = map (set_IsTransitive true) flat.
Proof.
  intros H. rewrite <- (app_nil_r flat) at 1.
  rewrite (scan_app tag name flat [] H). apply app_nil_r.
Qed.

Lemma all_marked_transitive (l : list NpmPackage) :
  Forall (fun q => IsTransitive q = true) (map (set_IsTransitive true) l).
Proof. apply Forall_forall. intros q Hq. apply in_map_iff in Hq as (q0 & <- & _). reflexivity. Qed.

Lemma names_differ_all (l l' : list NpmPackage) (n : string) :
  map Name l' = map Name l ->
  (forall q, In q l -> Name q <> n) -> forall q, In q l' -> Name q <> n.
Proof. apply names_differ_transfer. Qed.

(** The key listed last in [devDependencies] has the last word on the
    transitive flags: if no flattened record has that name, every record
    ends transitive, whatever was declared before; otherwise the first
    record of that name ends direct and tagged [devDependency], and every
    record in front of it ends transitive. *)
Theorem last_dev_key_decides (pj : PackageJson) (deps devs : JsObject string)
        (k v : string) (flat : list NpmPackage) :
  pj_dependencies pj = Some deps ->
  pj_devDependencies pj = Some (devs ++ [(k, v)])%list ->
  exists out,
    reconcile pj flat = Ok out /\
    ((forall q, In q flat -> Name q <> k) ->
     Forall (fun q => IsTransitive q = true) out) /\
    (forall pre e post,
        flat = (pre ++ e :: post)%list -> Name e = k ->
        (forall q, In q pre -> Name q <> k) ->
        exists pre' e' post',
          out = (pre' ++ e' :: post')%list /\ length pre' = length pre /\
          Forall (fun q => IsTransitive q = true) pre' /\
          Name e' = k /\ IsTransitive e' = false /\
          DependencyType e' = "devDependency").
Proof.
  intros Hd Hv.
  destruct (extractPackageJsonInfo_names deps) as (top & Htop & _).
  destruct (extractPackageJsonInfo_snoc devs k v) as (dl & x & Hdev & Hx).
  exists (devPass (dl ++ [x]) (runtimePass top flat)). split.
  { unfold reconcile. rewrite Hd, Hv, Htop, Hdev. reflexivity. }
  rewrite devPass_app, devPass_one, Hx.
  assert (Hn : map Name (devPass dl (runtimePass top flat)) = map Name flat)
    by (rewrite devPass_names; apply runtimePass_names).
  split.
  - intros Hno. rewrite scan_no_match by exact (names_differ_all _ _ _ Hn Hno).
    apply all_marked_transitive.
  - intros pre e post Hflat He Hpre. subst flat.
    destruct (same_names_split _ _ _ _ Hn) as (pre' & e' & post' & -> & Hm & He').
    exists (map (set_IsTransitive true) pre'), (markDirect "devDependency" e'), post'.
    split; [|repeat split].
    + apply scan_first_match; [exact (names_differ_transfer _ _ _ Hm Hpre) | congruence].
    + rewrite length_map. exact (same_names_length _ _ Hm).
    + apply all_marked_transitive.
    + simpl. congruence.
Qed.

Lemma last_dev_key_decides_example :
  exists out,
    reconcile (mkPackageJson (Some [("a", "^1.0.0")]) (Some [("b", "^2.0.0"); ("gone", "1")]))
              (extractInfo [("a", mkNode "1.0.0" false None);
                            ("b", mkNode "2.0.0" false None)]) = Ok out /\
    Forall (fun q => IsTransitive q = true) out.
Proof.
  destruct (last_dev_key_decides
              (mkPackageJson (Some [("a", "^1.0.0")]) (Some [("b", "^2.0.0"); ("gone", "1")]))
              [("a", "^1.0.0")] [("b", "^2.0.0")] "gone" "1"
              (extractInfo [("a", mkNode "1.0.0" false None);
                            ("b", mkNode "2.0.0" false None)])
              eq_refl eq_refl) as (out & Hout & Hall & _).
  exists out. split; [exact Hout|]. apply Hall.
  simpl. intros q [<-|[<-|[]]]; simpl; discriminate.
Defined.

(** ** The entry point, branch by branch *)

Lemma regexp_unit_matches_refl (c : ascii) : Js.regexp_unit_matches c c = true.
Proof.
  unfold Js.regexp_unit_matches. destruct (Ascii.eqb_spec c ".") as [->|_];
    [reflexivity | apply Ascii.eqb_refl].
Qed.

Lemma regexp_matches_here_literal (pat post : string) :
  Js.regexp_matches_here pat (pat ++ post) = true.
Proof.
  induction pat as [|c pat IH]; simpl; [reflexivity|].
  rewrite regexp_unit_matches_refl, IH. reflexivity.
Qed.

Lemma search_found_eq (pat s : string) :
  Js.search_found pat s =
  if Js.regexp_matches_here pat s then true
  else match s with
       | EmptyString => false
       | String _ s' => Js.search_found pat s'
       end.
Proof. destruct s; reflexivity. Qed.

Lemma search_found_literal (pat s : string) :
  Contains pat s -> Js.search_found pat s = true.
Proof.
  intros (pre & post & ->). induction pre as [|c pre IH]; rewrite search_found_eq.
  - simpl append at 1. rewrite regexp_matches_here_literal. reflexivity.
  - change (String c pre ++ pat ++ post) with (String c (pre ++ pat ++ post)).
    cbv beta iota. rewrite IH. destruct (Js.regexp_matches_here _ _); reflexivity.
Qed.

Lemma nonempty_eqb (s : string) : s <> "" <-> negb (s =? "") = true.
Proof.
  destruct (String.eqb_spec s ""); simpl; split; congruence.
Qed.

(** For [yarn.lock] and [package-lock.json] the promise resolves exactly
    when the listing command printed something on stdout and nothing on
    stderr, and it resolves with the parse of that stdout; neither file
    of the workspace is read. *)
Theorem listing_paths_resolve_iff (w : World) (l : list NpmPackage) :
  (getDependencyArray w YARN_LOCK = Resolve l <->
   exists stdout, exec w YARN_LIST_COMMAND = ExecDone stdout "" /\
                  stdout <> "" /\ l = parseYarnList stdout) /\
  (getDependencyArray w PACKAGE_LOCK_JSON = Resolve l <->
   exists stdout, exec w NPM_LIST_COMMAND = ExecDone stdout "" /\
                  stdout <> "" /\ l = parseNpmList stdout).
Proof.
  unfold getDependencyArray, read_failed.
  change (PACKAGE_LOCK_JSON =? YARN_LOCK) with false.
  change (PACKAGE_LOCK_JSON =? NPM_SHRINKWRAP_JSON) with false.
  rewrite !String.eqb_refl. cbv iota.
  split.
  - destruct (exec w YARN_LIST_COMMAND) as [stdout stderr|e].
    + destruct (String.eqb_spec stdout "") as [->|Hne],
               (String.eqb_spec stderr "") as [->|Hne']; simpl; split;
        try discriminate;
        try (intros (so & E & Hso & Hl); inversion E; subst; congruence).
      intros H; injection H as <-. exists stdout. auto.
    + split; [discriminate | intros (so & E & _); discriminate].
  - destruct (exec w NPM_LIST_COMMAND) as [stdout stderr|e].
    + destruct (String.eqb_spec stdout "") as [->|Hne],
               (String.eqb_spec stderr "") as [->|Hne']; simpl; split;
        try discriminate;
        try (intros (so & E & Hso & Hl); inversion E; subst; congruence).
      intros H; injection H as <-. exists stdout. auto.
    + split; [discriminate | intros (so & E & _); discriminate].
Qed.



Lemma shrinkwrap_branch (w : World) :
  getDependencyArray w NPM_SHRINKWRAP_JSON =
  match exec w NPM_SHRINKWRAP_COMMAND with
  | ExecThrows e => read_failed NPM_SHRINKWRAP_JSON e
  | ExecDone stdout stderr =>
      if negb (negb (stdout =? "") || Js.search_found NPM_SHRINKWRAP_JSON stderr)
      then Reject ("Unable to run " ++ NPM_SHRINKWRAP_COMMAND)
      else
        match read_shrinkwrap w with
        | Throw e => read_failed NPM_SHRINKWRAP_JSON e
        | Ok obj =>
            match read_package_json w with
            | Throw e => read_failed NPM_SHRINKWRAP_JSON e
            | Ok objTopLevel =>
                match flattenAndUniqDependencies obj objTopLevel with
                | Throw e => read_failed NPM_SHRINKWRAP_JSON e
                | Ok flatDependencies => Resolve flatDependencies
                end
            end
        end
  end.
Proof.
  unfold getDependencyArray.
  change (NPM_SHRINKWRAP_JSON =? YARN_LOCK) with false.
  rewrite String.eqb_refl. reflexivity.
Qed.

(** For [npm-shrinkwrap.json] the promise resolves exactly when the
    command printed something on stdout or its stderr matches the file
    name, both files parse, and [flattenAndUniqDependencies] returns; it
    resolves with what that call returns.  A stderr that names the file
    always matches, so an empty stdout does not stop the call then. *)
Theorem shrinkwrap_path_resolves_iff (w : World) (l : list NpmPackage) :
  (getDependencyArray w NPM_SHRINKWRAP_JSON = Resolve l <->
   exists stdout stderr sw pj,
     exec w NPM_SHRINKWRAP_COMMAND = ExecDone stdout stderr /\
     (stdout <> "" \/ Js.search_found NPM_SHRINKWRAP_JSON stderr = true) /\
     read_shrinkwrap w = Ok sw /\ read_package_json w = Ok pj /\
     flattenAndUniqDependencies sw pj = Ok l) /\
  (forall stderr, Contains NPM_SHRINKWRAP_JSON stderr ->
                  Js.search_found NPM_SHRINKWRAP_JSON stderr = true).
Proof.
  split; [|intros stderr; apply search_found_literal].
  rewrite shrinkwrap_branch. unfold read_failed. split.
  - destruct (exec w NPM_SHRINKWRAP_COMMAND) as [stdout stderr|e]; [|discriminate].
    destruct (negb (stdout =? "") || Js.search_found NPM_SHRINKWRAP_JSON stderr) eqn:Hs;
      simpl; [|discriminate].
    destruct (read_shrinkwrap w) as [sw|e]; [|discriminate].
    destruct (read_package_json w) as [pj|e]; [|discriminate].
    destruct (flattenAndUniqDependencies sw pj) as [out|e] eqn:Hf; [|discriminate].
    intros H; injection H as <-. exists stdout, stderr, sw, pj.
    repeat split; auto.
    apply orb_true_iff in Hs as [Hs|Hs]; [left; apply nonempty_eqb, Hs | right; exact Hs].
  - intros (stdout & stderr & sw & pj & -> & Hs & -> & -> & ->).
    assert (Hb : negb (stdout =? "") || Js.search_found NPM_SHRINKWRAP_JSON stderr = true).
    { apply orb_true_iff. destruct Hs as [Hs|Hs]; [left; apply nonempty_eqb, Hs | right; exact Hs]. }
    rewrite Hb. reflexivity.
Qed.

(** On the tree path, a manifest without a [dependencies] or a
    [devDependencies] key rejects the whole call once the tree has a
    [dependencies] map, and the message ends in [undefined]: what was
    thrown has no [stderr]. *)
Theorem missing_manifest_key_rejects (w : World) (stdout stderr : string)
        (sw : ShrinkwrapContents) (pj : PackageJson) :
  exec w NPM_SHRINKWRAP_COMMAND = ExecDone stdout stderr ->
  stdout <> "" \/ Js.search_found NPM_SHRINKWRAP_JSON stderr = true ->
  read_shrinkwrap w = Ok sw -> read_package_json w = Ok pj ->
  sw_dependencies sw <> None ->
  pj_dependencies pj = None \/ pj_devDependencies pj = None ->
  getDependencyArray w NPM_SHRINKWRAP_JSON
  = Reject "npm-shrinkwrap.json read failed, try running it manually to see what went wrong: undefined".
Proof.
  intros He Hs Hsw Hpj Ht Hmiss. rewrite shrinkwrap_branch, He.
  assert (Hb : negb (stdout =? "") || Js.search_found NPM_SHRINKWRAP_JSON stderr = true).
  { apply orb_true_iff. destruct Hs as [Hs|Hs]; [left; apply nonempty_eqb, Hs | right; exact Hs]. }
  rewrite Hb, Hsw, Hpj. simpl negb. cbv iota.
  unfold flattenAndUniqDependencies, reconcile.
  destruct (sw_dependencies sw) as [t|]; [|contradiction]. cbv zeta.
  destruct (pj_dependencies pj) as [deps|]; simpl; [|reflexivity].
  destruct Hmiss as [Hm|Hm]; [discriminate|]. rewrite Hm. reflexivity.
Qed.

Lemma missing_manifest_key_rejects_example :
  getDependencyArray
    (shrinkwrap_world (mkShrinkwrap (Some scenario_C_tree))
                      (mkPackageJson (Some [("a", "^1.0.0")]) None))
    NPM_SHRINKWRAP_JSON
  = Reject "npm-shrinkwrap.json read failed, try running it manually to see what went wrong: undefined".
Proof.
  apply (missing_manifest_key_rejects _ ""
           "npm notice created a lockfile as npm-shrinkwrap.json"
           (mkShrinkwrap (Some scenario_C_tree))
           (mkPackageJson (Some [("a", "^1.0.0")]) None)).
  - reflexivity.
  - right. reflexivity.
  - reflexivity.
  - reflexivity.
  - discriminate.
  - right. reflexivity.
Defined.

(** ** Lines and their last token *)

Lemma split_app (sep : ascii) (a b : string) :
  Js.split sep (a ++ String sep b) = (Js.split sep a ++ Js.split sep b)%list.
Proof.
  induction a as [|c a IH]; simpl.
  - rewrite Ascii.eqb_refl. reflexivity.
  - destruct (Ascii.eqb c sep); rewrite IH; [reflexivity|].
    destruct (Js.split sep a) as [|p ps] eqn:Es;
      [exfalso; exact (split_nonempty _ _ Es) | reflexivity].
Qed.

Lemma lastOf_app (l1 l2 : list string) :
  l2 <> [] -> Js.lastOf (l1 ++ l2)%list = Js.lastOf l2.
Proof.
  unfold Js.lastOf. intros H. induction l1 as [|x l1 IH]; simpl; [reflexivity|].
  destruct (l1 ++ l2)%list eqn:E; [|exact IH].
  apply app_eq_nil in E as [_ E]. contradiction.
Qed.

Lemma trimEnd_eq (c : ascii) (s : string) :
  Js.trimEnd (String c s) =
  match Js.trimEnd s with
  | EmptyString => if Js.is_whitespace c then EmptyString else String c EmptyString
  | t => String c t
  end.
Proof. reflexivity. Qed.

Lemma trimEnd_whitespace (ws : string) : AllWhitespace ws -> Js.trimEnd ws = "".
Proof.
  induction ws as [|c ws IH]; intros H; [reflexivity|].
  rewrite trimEnd_eq, IH, (H c (Contains_head c ws)); [reflexivity|].
  intros c' Hc'. apply H, Contains_tail, Hc'.
Qed.

Lemma trimEnd_token (token ws : string) :
  token <> "" -> NoWhitespace token -> AllWhitespace ws ->
  Js.trimEnd (token ++ ws) = token.
Proof.
  intros Hne Hn Hw. induction token as [|c t IH]; [contradiction|].
  change (String c t ++ ws) with (String c (t ++ ws)). rewrite trimEnd_eq.
  assert (Hc : Js.is_whitespace c = false) by apply Hn, Contains_head.
  destruct t as [|c' t'].
  - simpl append. rewrite (trimEnd_whitespace ws Hw), Hc. reflexivity.
  - rewrite IH; [reflexivity | discriminate|].
    intros x Hx. apply Hn, Contains_tail, Hx.
Qed.

Lemma trimEnd_app (x y : string) :
  Js.trimEnd y <> "" -> Js.trimEnd (x ++ y) = x ++ Js.trimEnd y.
Proof.
  intros H. induction x as [|c x IH]; [reflexivity|].
  change (String c x ++ y) with (String c (x ++ y)). rewrite trimEnd_eq, IH.
  change (String c x ++ Js.trimEnd y) with (String c (x ++ Js.trimEnd y)).
  destruct (x ++ Js.trimEnd y) eqn:E; [|reflexivity].
  destruct x; simpl in E; [contradiction | discriminate].
Qed.

Lemma trimStart_token (token rest : string) :
  token <> "" -> NoWhitespace token ->
  Js.trimStart (token ++ rest) = token ++ rest.
Proof.
  intros Hne Hn. destruct token as [|c t]; [contradiction|]. simpl.
  rewrite (Hn c (Contains_head c t)). reflexivity.
Qed.

Lemma NoWhitespace_no_space (token : string) :
  NoWhitespace token -> ~ Contains " " token.
Proof. intros Hn H. apply Hn in H. discriminate. Qed.

(** The parts of a line: whatever stands in front of the last space, and
    whatever white space follows (a carriage return, say), the last part
    is the token. *)
Lemma line_last_token (pre token ws : string) :
  token <> "" -> NoWhitespace token -> AllWhitespace ws ->
  Js.lastOf (Js.split " " (Js.trim (pre ++ " " ++ token ++ ws))) = token.
Proof.
  intros Hne Hn Hw. unfold Js.trim.
  assert (Htok : Js.trimEnd (token ++ ws) = token) by (apply trimEnd_token; assumption).
  assert (Hsplit : Js.split " " token = [token])
    by apply split_no_sep, NoWhitespace_no_space, Hn.
  induction pre as [|c pre IH].
  - change ("" ++ " " ++ token ++ ws) with (String " " (token ++ ws)).
    change (Js.trimStart (String " " (token ++ ws))) with (Js.trimStart (token ++ ws)).
    rewrite trimStart_token, Htok, Hsplit by assumption. reflexivity.
  - change (String c pre ++ " " ++ token ++ ws)
      with (String c (pre ++ " " ++ token ++ ws)).
    simpl Js.trimStart. destruct (Js.is_whitespace c); [exact IH|].
    replace (String c (pre ++ String " " (token ++ ws)))
      with ((String c pre ++ " ") ++ token ++ ws)
      by (rewrite append_assoc; reflexivity).
    rewrite trimEnd_app by (rewrite Htok; exact Hne).
    rewrite Htok, append_assoc. change (" " ++ token) with (String " " token).
    rewrite split_app, lastOf_app, Hsplit by (rewrite Hsplit; discriminate).
    reflexivity.
Qed.

Lemma setAndReturnNpmPackage_last (splitParts : list string) :
  setAndReturnNpmPackage splitParts = setAndReturnNpmPackage [Js.lastOf splitParts].
Proof. reflexivity. Qed.

Lemma deduped_is_no_record (splitParts : list string) :
  Js.lastOf splitParts = "deduped" -> exists e, setAndReturnNpmPackage splitParts = Throw e.
Proof.
  intros H. rewrite setAndReturnNpmPackage_last, H. eexists. reflexivity.
Qed.

Lemma npmListLine_next (acc : list NpmPackage) (dep : string) (i : nat) :
  npmListLine acc dep (S i) = (acc ++ npmRecordOfLine dep)%list.
Proof.
  unfold npmListLine, npmRecordOfLine. simpl Nat.eqb. cbv iota zeta.
  destruct (String.eqb_spec (Js.lastOf (Js.split " " (Js.trim dep))) "deduped") as [E|_].
  - destruct (deduped_is_no_record _ E) as [e ->]. symmetry. apply app_nil_r.
  - destruct (setAndReturnNpmPackage _); [reflexivity | symmetry; apply app_nil_r].
Qed.

Lemma yarnListLine_next (acc : list NpmPackage) (dep : string) (i : nat) :
  yarnListLine acc dep (S i) = (acc ++ yarnRecordOfLine dep)%list.
Proof.
  unfold yarnListLine, yarnRecordOfLine, npmRecordOfLine. simpl Nat.eqb. cbv iota zeta.
  destruct (isRegularVersion _); simpl; [|symmetry; apply app_nil_r].
  destruct (setAndReturnNpmPackage _); [reflexivity | symmetry; apply app_nil_r].
Qed.

Lemma forEach_from_next {A : Type} (f : list A -> string -> nat -> list A)
      (g : string -> list A) (l : list string) :
  (forall acc dep i, f acc dep (S i) = (acc ++ g dep)%list) ->
  forall i acc, forEach_from f (S i) l acc = (acc ++ flat_map g l)%list.
Proof.
  intros Hf. induction l as [|x l IH]; intros i acc; simpl.
  - symmetry. apply app_nil_r.
  - rewrite Hf, IH, <- app_assoc. reflexivity.
Qed.

Lemma forEach_lines {A : Type} (f : list A -> string -> nat -> list A)
      (g : string -> list A) (l : list string) :
  (forall acc dep, f acc dep 0 = acc) ->
  (forall acc dep i, f acc dep (S i) = (acc ++ g dep)%list) ->
  forEach l f [] = flat_map g (tl l).
Proof.
  intros H0 Hf. destruct l as [|h l]; [reflexivity|].
  rewrite forEach_header by apply H0. rewrite (forEach_from_next f g l Hf). reflexivity.
Qed.

Lemma append_empty (s : string) : s ++ "" = s.
Proof. induction s; simpl; congruence. Qed.

Lemma bare_token_last (token : string) :
  token <> "" -> NoWhitespace token ->
  Js.lastOf (Js.split " " (Js.trim token)) = token.
Proof.
  intros Hne Hn. unfold Js.trim.
  pose proof (trimStart_token token "" Hne Hn) as Hs.
  pose proof (trimEnd_token token "" Hne Hn) as He.
  rewrite append_empty in Hs, He. rewrite Hs, He.
  - rewrite (split_no_sep " " token (NoWhitespace_no_space _ Hn)). reflexivity.
  - intros c (p & q & H). destruct p; discriminate.
Qed.

(** A line [pre token ws] past the first adds to each parser's array what
    its token alone gives: [pre] and the trailing white space play no
    part. *)
Theorem line_contributes_its_last_token
        (acc : list NpmPackage) (pre token ws : string) (i : nat) :
  token <> "" -> NoWhitespace token -> AllWhitespace ws ->
  npmListLine acc (pre ++ " " ++ token ++ ws) (S i)
  = (acc ++ npmRecordOfLine token)%list /\
  yarnListLine acc (pre ++ " " ++ token ++ ws) (S i)
  = (acc ++ yarnRecordOfLine token)%list.
Proof.
  intros Hne Hn Hw.
  assert (Hl := line_last_token pre token ws Hne Hn Hw).
  assert (Hl' := bare_token_last token Hne Hn).
  rewrite npmListLine_next, yarnListLine_next.
  unfold yarnRecordOfLine, npmRecordOfLine.
  rewrite (setAndReturnNpmPackage_last (Js.split " " (Js.trim (pre ++ " " ++ token ++ ws)))).
  rewrite (setAndReturnNpmPackage_last (Js.split " " (Js.trim token))).
  rewrite Hl, Hl'. split; reflexivity.
Qed.

Ltac decide_units H :=
  repeat (apply Contains_unit_cons in H as [<-|H]; [reflexivity|]);
  destruct H as (?p & ?q & H); destruct p; discriminate H.

(** A line of a listing that ends in a carriage return. *)
Lemma line_contributes_its_last_token_example :
  npmListLine [] ("`--" ++ " " ++ "lodash@4.17.21" ++ String "013" "") 1
  = ([] ++ npmRecordOfLine "lodash@4.17.21")%list /\
  yarnListLine [] ("`--" ++ " " ++ "lodash@4.17.21" ++ String "013" "") 1
  = ([] ++ yarnRecordOfLine "lodash@4.17.21")%list.
Proof.
  apply (line_contributes_its_last_token [] "`--" "lodash@4.17.21" (String "013" "") 0).
  - discriminate.
  - intros c H. decide_units H.
  - intros c H. decide_units H.
Defined.

(** [parseNpmList] is: for every line after the first, the record its
    parts build, if they build one; then [uniqBy] and the sort.  The test
    for [deduped] removes nothing that would have stayed: such a token
    builds no record. *)
Theorem parseNpmList_filter_map (output : string) :
  parseNpmList output
  = sortDependencyList
      (Js.uniqBy (flat_map npmRecordOfLine (tl (Js.split "010" output))) toPurl).
Proof.
  unfold parseNpmList.
  rewrite (forEach_lines npmListLine npmRecordOfLine);
    [reflexivity | reflexivity | apply npmListLine_next].
Qed.

(** [parseYarnList] is the same with one more filter: a line counts only
    when the classifier accepts its last part. *)
Theorem parseYarnList_filter_map (output : string) :
  parseYarnList output
  = sortDependencyList
      (Js.uniqBy (flat_map yarnRecordOfLine (tl (Js.split "010" output))) toPurl).
Proof.
  unfold parseYarnList.
  rewrite (forEach_lines yarnListLine yarnRecordOfLine);
    [reflexivity | reflexivity | apply yarnListLine_next].
Qed.

Lemma tl_app_nonempty {A : Type} (l1 l2 : list A) :
  l1 <> [] -> tl (l1 ++ l2) = (tl l1 ++ l2)%list.
Proof. destruct l1; [contradiction | reflexivity]. Qed.

Lemma lines_without (g : string -> list NpmPackage) (a line b : string) :
  ~ Contains LF line -> g line = [] ->
  flat_map g (tl (Js.split "010" (a ++ LF ++ line ++ LF ++ b)))
  = flat_map g (tl (Js.split "010" (a ++ LF ++ b))) /\
  flat_map g (tl (Js.split "010" (a ++ LF ++ line)))
  = flat_map g (tl (Js.split "010" a)).
Proof.
  intros Hl Hg. unfold LF.
  change (a ++ String "010" "" ++ line ++ String "010" "" ++ b)
    with (a ++ String "010" (line ++ String "010" b)).
  change (a ++ String "010" "" ++ b) with (a ++ String "010" b).
  change (a ++ String "010" "" ++ line) with (a ++ String "010" line).
  rewrite !split_app, (split_no_sep "010" line Hl).
  rewrite !tl_app_nonempty by apply split_nonempty.
  rewrite !flat_map_app. simpl. rewrite Hg. simpl.
  split; [reflexivity | apply app_nil_r].
Qed.

(** A line that adds no record can be taken out of the listing, from the
    middle or from the end, without changing what either parser returns:
    the position of a line past the first plays no part. *)
Theorem skipped_lines_can_be_dropped (a line b : string) :
  ~ Contains LF line ->
  (npmRecordOfLine line = [] ->
   parseNpmList (a ++ LF ++ line ++ LF ++ b) = parseNpmList (a ++ LF ++ b) /\
   parseNpmList (a ++ LF ++ line) = parseNpmList a) /\
  (yarnRecordOfLine line = [] ->
   parseYarnList (a ++ LF ++ line ++ LF ++ b) = parseYarnList (a ++ LF ++ b) /\
   parseYarnList (a ++ LF ++ line) = parseYarnList a).
Proof.
  intros Hl. split; intros Hg.
  - unfold parseNpmList.
    rewrite !(forEach_lines npmListLine npmRecordOfLine)
      by (reflexivity || apply npmListLine_next).
    destruct (lines_without npmRecordOfLine a line b Hl Hg) as [-> ->].
    split; reflexivity.
  - unfold parseYarnList.
    rewrite !(forEach_lines yarnListLine yarnRecordOfLine)
      by (reflexivity || apply yarnListLine_next).
    destruct (lines_without yarnRecordOfLine a line b Hl Hg) as [-> ->].
    split; reflexivity.
Qed.

(** Scenario B with its [deduped] line, and the same listing ending in an
    empty line. *)
Lemma skipped_lines_can_be_dropped_example :
  parseNpmList (("root" ++ LF ++ "express@4.18.0") ++ LF ++ "debug@4.3.4 deduped"
                  ++ LF ++ "")
  = parseNpmList (("root" ++ LF ++ "express@4.18.0") ++ LF ++ "") /\
  parseNpmList (("root" ++ LF ++ "express@4.18.0") ++ LF ++ "debug@4.3.4 deduped")
  = parseNpmList ("root" ++ LF ++ "express@4.18.0").
Proof.
  apply (proj1 (skipped_lines_can_be_dropped
                  ("root" ++ LF ++ "express@4.18.0") "debug@4.3.4 deduped" ""
                  (proj1 (includes_false_iff LF "debug@4.3.4 deduped") eq_refl))).
  reflexivity.
Defined.
